(** * phospho: the extractor (payload normalisation) and the lab (jobs and
    workloads), embedded from

    - [phospho-python/phospho/extractor.py]
    - [phospho/lab/lab.py]

    Python values are a small universe [pyval]; a call that may raise
    returns a [result]; the mutable [job_results] dictionary of a job and
    the result table of a workload are [gmap]s threaded through the calls. *)

From stdpp Require Import gmap strings list fin_maps.
From Stdlib Require Import ZArith.

#[local] Set Warnings "-register-all".
Local Open Scope string_scope.

(** ** Python values *)

(** The values the extractor handles.  A dictionary keeps its insertion
    order and has string keys ([Dict[str, Any]] in the source); a pydantic
    model carries its class name and its fields; [PObj] is any other
    object, a plain record of attributes: it has a class name, it is not
    iterable and it has no [get], [keys] or [items]. *)
Inductive pyval : Type :=
| PNone
| PBool (b : bool)
| PInt (z : Z)
| PStr (s : string)
| PBytes (b : string)
| PList (l : list pyval)
| PDict (d : list (string * pyval))
| PModel (cls : string) (fields : list (string * pyval))
| PObj (cls : string) (attrs : list (string * pyval)).

Abbreviation pydict := (list (string * pyval)).

(** What [dict(x)] does: it builds a dictionary, or raises [ValueError] (an
    iterable whose items are not pairs) or [TypeError] (not iterable). *)
Inductive dict_outcome : Type :=
| DictOk (d : pydict)
| DictValueError
| DictTypeError.

(** ** Exceptions and results *)

Inductive exn : Type :=
| JSONDecodeError
| UnicodeDecodeError
| ValueError
| NotImplementedError
| AttributeError
| TypeError
| KeyError
| AssertionError.

Inductive result (A : Type) : Type :=
| Ok (a : A)
| Raise (e : exn).
Arguments Ok {A} a.
Arguments Raise {A} e.

(** Sequencing: an exception raised by the first call ends the second. *)
#[export] Instance result_ret : MRet result := fun _ a => Ok a.
#[export] Instance result_bind : MBind result := fun _ _ k r =>
  match r with
  | Ok a => k a
  | Raise e => Raise e
  end.
#[export] Instance result_fmap : FMap result := fun _ _ f r =>
  match r with
  | Ok a => Ok (f a)
  | Raise e => Raise e
  end.

(** ** Dictionary and attribute access *)

(** [d[k]] when the key is there; the first binding of a key is the one a
    dictionary holds. *)
Fixpoint dict_lookup (k : string) (d : pydict) : option pyval :=
  match d with
  | [] => None
  | (k', v) :: d' => if String.eqb k k' then Some v else dict_lookup k d'
  end.

(** [k in d.keys()] *)
Definition dict_mem (k : string) (d : pydict) : bool :=
  match dict_lookup k d with Some _ => true | None => false end.

(** [d.get(k, default)] *)
Definition dict_get (k : string) (default : pyval) (d : pydict) : pyval :=
  match dict_lookup k d with Some v => v | None => default end.

(** [x.get(k, default)]: only a dictionary has the method. *)
Definition py_get (x : pyval) (k : string) (default : pyval) : result pyval :=
  match x with
  | PDict d => Ok (dict_get k default d)
  | _ => Raise AttributeError
  end.

(** [getattr(x, name, None)]: models and objects have the attributes they
    were built with; no built-in value has one of the names the extractor
    asks for ([choices], [message], [delta], [content]). *)
Definition py_getattr (x : pyval) (name : string) : pyval :=
  match x with
  | PModel _ fs => dict_get name PNone fs
  | PObj _ fs => dict_get name PNone fs
  | _ => PNone
  end.

(** [getattr(x, name)], without a default. *)
Definition py_getattr_strict (x : pyval) (name : string) : result pyval :=
  match x with
  | PModel _ fs | PObj _ fs =>
      match dict_lookup name fs with
      | Some v => Ok v
      | None => Raise AttributeError
      end
  | _ => Raise AttributeError
  end.

(** [x.__class__.__name__] *)
Definition class_name (x : pyval) : string :=
  match x with
  | PNone => "NoneType"
  | PBool _ => "bool"
  | PInt _ => "int"
  | PStr _ => "str"
  | PBytes _ => "bytes"
  | PList _ => "list"
  | PDict _ => "dict"
  | PModel c _ => c
  | PObj c _ => c
  end.

Definition is_none (x : pyval) : bool :=
  match x with PNone => true | _ => false end.

(** [pydantic.BaseModel.model_dump()]: the fields as a dictionary, with the
    models nested in them (also inside lists and dictionaries) dumped in
    turn. *)
Fixpoint dump_value (v : pyval) : pyval :=
  match v with
  | PModel _ fs => PDict (map (fun kv => (kv.1, dump_value kv.2)) fs)
  | PList l => PList (map dump_value l)
  | PDict d => PDict (map (fun kv => (kv.1, dump_value kv.2)) d)
  | _ => v
  end.

Definition model_dump (fields : pydict) : pydict :=
  map (fun kv => (kv.1, dump_value kv.2)) fields.

(** ** [phospho.utils] *)

(** Modelled from the spec: [is_jsonable] of [phospho/utils.py], which is
    not among the sources.  The spec has the structured representation be
    the value itself if it is fully serializable; a value is serializable
    as JSON when it is [None], a boolean, an integer, a string, or a list
    or a string-keyed dictionary of serializable values. *)
Fixpoint is_jsonable (v : pyval) : bool :=
  match v with
  | PNone | PBool _ | PInt _ | PStr _ => true
  | PList l => forallb is_jsonable l
  | PDict d => forallb (fun kv => is_jsonable kv.2) d
  | PBytes _ | PModel _ _ | PObj _ _ => false
  end.

(** Modelled from the spec: [filter_nonjsonable_keys] of
    [phospho/utils.py], which is not among the sources.  The spec has it
    return the mapping with the non-serializable fields removed. *)
Definition filter_nonjsonable_keys (d : pydict) : pydict :=
  List.filter (fun kv => is_jsonable kv.2) d.

(** ** The host *)

(** What the embedding takes from the Python runtime and from the absent
    [phospho/utils.py] as it is, without a definition of its own. *)
Record host : Type := Host {
  (** [json.loads]: the parsed value, or [None] for a [JSONDecodeError] *)
  json_loads : string -> option pyval;
  (** [bytes.decode()]: the text, or [None] for a [UnicodeDecodeError] *)
  decode : string -> option string;
  (** [str(x)] of a value that is not a string *)
  py_repr : pyval -> string;
  (** [dict(l)] of a list *)
  dict_of_list : list pyval -> dict_outcome;
  (** [filter_nonjsonable_keys(x)] of a value that is not a mapping, on
      which the spec is silent *)
  filter_non_mapping : pyval -> result pyval
}.

(** ** The extractor *)

Section Extractor.

Variable h : host.

(** [str(x)] *)
Definition py_str (x : pyval) : string :=
  match x with
  | PStr s => s
  | _ => py_repr h x
  end.

(** [dict(x)] *)
Definition py_dict (x : pyval) : dict_outcome :=
  match x with
  | PDict d => DictOk d
  | PModel _ fs => DictOk fs
  | PList l => dict_of_list h l
  | PStr s => if String.eqb s "" then DictOk [] else DictValueError
  | PBytes b => if String.eqb b "" then DictOk [] else DictTypeError
  | PNone | PBool _ | PInt _ | PObj _ _ => DictTypeError
  end.

Definition convert_to_dict (x : pyval) : result pyval :=
  match x with
  | PDict _ => Ok x
  | PModel _ fs => Ok (PDict (model_dump fs))
  | PStr s =>
      match json_loads h s with
      | Some v => Ok v
      | None => Raise JSONDecodeError
      end
  | PBytes b =>
      match decode h b with
      | None => Raise UnicodeDecodeError
      | Some s =>
          match json_loads h s with
          | Some v => Ok v
          | None => Raise JSONDecodeError
          end
      end
  | _ =>
      match py_dict x with
      | DictOk d => Ok (PDict d)
      | DictValueError => Raise ValueError
      | DictTypeError => Raise NotImplementedError
      end
  end.

(** [p in s] on strings: [p] occurs in [s]. *)
Fixpoint is_infix (p s : string) : bool :=
  String.prefix p s ||
  match s with
  | EmptyString => false
  | String _ s' => is_infix p s'
  end.

Definition is_str (k : string) (x : pyval) : bool :=
  match x with PStr s => String.eqb s k | _ => false end.

(** [k in x], for a string [k]: by key on a dictionary, by substring on a
    string, by element on a list; a model iterates over (name, value)
    pairs, none of which is a string; the other values are no containers
    of strings. *)
Definition py_contains (k : string) (x : pyval) : result bool :=
  match x with
  | PDict d => Ok (dict_mem k d)
  | PStr s => Ok (is_infix k s)
  | PList l => Ok (existsb (is_str k) l)
  | PModel _ _ => Ok false
  | PBytes _ | PNone | PBool _ | PInt _ | PObj _ _ => Raise TypeError
  end.

(** The messages list of an OpenAI-like input, when the first four
    conditions of the test in [detect_str_from_input] hold: its last
    element. *)
Definition last_message (input : pyval) : option pyval :=
  match input with
  | PDict d =>
      match dict_lookup "messages" d with
      | Some (PList msgs) => last msgs
      | _ => None
      end
  | _ => None
  end.

Definition detect_str_from_input (input : pyval) : result pyval :=
  match last_message input with
  | Some m =>
      has ← py_contains "content" m;
      if has : bool then
        content ← py_get m "content" PNone;
        if is_none content then Ok (PStr (py_str input))
        else Ok (PStr (py_str content))
      else Ok (PStr (py_str input))
  | None => Ok (PStr (py_str input))
  end.

(** The block of [detect_str_from_output] on pydantic models: [Some] when
    it returns or raises, [None] when control goes on. *)
Definition openai_model_str (output_class_name : string) (output : pyval)
  : option (result pyval) :=
  match output with
  | PModel _ _ =>
      if String.eqb output_class_name "ChatCompletion"
         || String.eqb output_class_name "ChatCompletionChunk" then
        match py_getattr output "choices" with
        | PList (c0 :: _) =>
            if String.eqb output_class_name "ChatCompletion" then
              let message := py_getattr c0 "message" in
              let content := py_getattr message "content" in
              if is_none content then None
              else Some (Ok (PStr (py_str content)))
            else
              Some (choice_delta ← py_getattr_strict c0 "delta";
                    let content := py_getattr choice_delta "content" in
                    if is_none content then Ok (PStr "")
                    else Ok (PStr (py_str content)))
        | _ => None
        end
      else None
  | _ => None
  end.

(** The [choices] block on dictionaries, in the same convention. *)
Definition openai_dict_str (d : pydict) : option (result pyval) :=
  match dict_lookup "choices" d with
  | Some (PList (c0 :: _)) =>
      match py_get c0 "message" PNone with
      | Raise e => Some (Raise e)
      | Ok message =>
          if is_none message then
            Some (choice_delta ← py_get c0 "delta" (PDict []);
                  content ← py_get choice_delta "content" PNone;
                  if is_none content then Ok (PStr "")
                  else Ok (PStr (py_str content)))
          else
            match py_get message "content" PNone with
            | Raise e => Some (Raise e)
            | Ok content =>
                if is_none content then None
                else Some (Ok (PStr (py_str content)))
            end
      end
  | _ => None
  end.

Definition detect_str_from_output (output : pyval) : result pyval :=
  let output_class_name := class_name output in
  let output :=
    match output with
    | PBytes _ =>
        match convert_to_dict output with
        | Ok v => v
        | Raise _ => output
        end
    | _ => output
    end in
  match openai_model_str output_class_name output with
  | Some r => r
  | None =>
      match output with
      | PDict d =>
          match openai_dict_str d with
          | Some r => r
          | None =>
              match dict_lookup "response" d with
              | Some v => Ok v
              | None => Ok (PStr (py_str output))
              end
          end
      | _ => Ok (PStr (py_str output))
      end
  end.

Definition detect_usage_from_input_output (input output : pyval) : pyval :=
  let output :=
    match output with
    | PModel _ fs => PDict (model_dump fs)
    | _ => output
    end in
  match output with
  | PDict d =>
      match dict_lookup "usage" d with
      | Some u => u
      | None =>
          if is_str "chat.completion.chunk" (dict_get "object" PNone d)
          then PDict [("completion_tokens", PInt 1)]
          else PNone
      end
  | _ => PNone
  end.

Definition detect_model_from_input_output (input output : pyval) : pyval :=
  match output with
  | PDict d =>
      match dict_lookup "model" d, input with
      | Some m, _ => m
      | None, PDict i => dict_get "model" PNone i
      | None, _ => PNone
      end
  | _ =>
      match input with
      | PDict i => dict_get "model" PNone i
      | _ => PNone
      end
  end.

(** [filter_nonjsonable_keys(convert_to_dict(x))] *)
Definition loggable_dict (x : pyval) : result pyval :=
  d ← convert_to_dict x;
  match d with
  | PDict kvs => Ok (PDict (filter_nonjsonable_keys kvs))
  | _ => filter_non_mapping h d
  end.

(** The structured representation both extraction functions log. *)
Definition loggable (x : pyval) : result pyval :=
  if is_jsonable x then Ok x else loggable_dict x.

Definition extract_data_from_output
    (output raw_output : pyval)
    (output_to_str_function : option (pyval -> result pyval))
  : result (pyval * pyval) :=
  let output_to_str_function :=
    default detect_str_from_output output_to_str_function in
  '(output_to_log, raw_output_to_log) ←
    (match output with
     | PNone => Ok (PNone, PNone)
     | PStr _ => Ok (output, output)
     | _ =>
         output_to_log ← output_to_str_function output;
         raw_output_to_log ← loggable output;
         Ok (output_to_log, raw_output_to_log)
     end);
  raw_output_to_log ←
    (if is_none raw_output then Ok raw_output_to_log else loggable raw_output);
  Ok (output_to_log, raw_output_to_log).

Definition extract_data_from_input
    (input raw_input : pyval)
    (input_to_str_function : option (pyval -> result pyval))
  : result (pyval * pyval) :=
  let input_to_str_function :=
    default detect_str_from_input input_to_str_function in
  '(input_to_log, raw_input_to_log) ←
    (match input with
     | PStr _ => Ok (input, input)
     | _ =>
         input_to_log ← input_to_str_function input;
         raw_input_to_log ← loggable input;
         Ok (input_to_log, raw_input_to_log)
     end);
  raw_input_to_log ←
    (if is_none raw_input then Ok raw_input_to_log else loggable raw_input);
  Ok (input_to_log, raw_input_to_log).

End Extractor.

(** ** The metadata of a call *)

(** [d[k] = v]: a key the dictionary has keeps its place. *)
Fixpoint dict_set (k : string) (v : pyval) (d : pydict) : pydict :=
  match d with
  | [] => [(k, v)]
  | (k', v') :: d' =>
      if String.eqb k k' then (k, v) :: d' else (k', v') :: dict_set k v d'
  end.

(** [d.update(u)] for the items [u] of a dictionary. *)
Definition dict_update (d u : pydict) : pydict :=
  foldl (fun acc kv => dict_set kv.1 kv.2 acc) d u.

Section Metadata.

Variable h : host.

(** [metadata.update(x)]: [x] is read as [dict(x)] reads it; what is not
    iterable is a [TypeError] here. *)
Definition py_update (metadata : pydict) (x : pyval) : result pydict :=
  match py_dict h x with
  | DictOk u => Ok (dict_update metadata u)
  | DictValueError => Raise ValueError
  | DictTypeError => Raise TypeError
  end.

Definition extract_metadata_from_input_output
    (input output : pyval)
    (input_output_to_usage_function : option (pyval -> pyval -> result pyval))
  : result pydict :=
  let metadata : pydict := [] in
  usage ←
    (match input_output_to_usage_function with
     | None => Ok (detect_usage_from_input_output input output)
     | Some f => f input output
     end);
  metadata ← (if is_none usage then Ok metadata else py_update metadata usage);
  let model := detect_model_from_input_output input output in
  if is_none model then Ok metadata
  else py_update metadata (PDict [("model", model)]).

End Metadata.

(** ** The lab: messages, jobs and workloads *)

Module Message.

Inductive role_t : Type := user | assistant.

(** Modelled from the spec: [Message] of [phospho/lab/models.py], which is
    not among the sources.  The spec gives it an [id], which is its
    identity, a [role] that is user or assistant, and a [content]. *)
Record t : Type := Build {
  id : string;
  role : role_t;
  content : string
}.

End Message.

(** What the attribute [job_function] of a job can hold, and what the
    module of the job library has under a name: a callable, with its
    [__name__] if it has one, which is called with a message and keyword
    arguments and returns a result or raises; or a value that is no
    callable, [None] among them. *)
Inductive JobFunction (JobResult : Type) : Type :=
| Callable (name : option string)
           (call : Message.t -> pydict -> result JobResult)
| NotCallable (v : pyval).
Arguments Callable {JobResult} _ _.
Arguments NotCallable {JobResult} _.

(** [f.__name__], if there is one; a value has none. *)
Definition fn_name {JobResult : Type} (f : JobFunction JobResult)
  : option string :=
  match f with
  | Callable name _ => name
  | NotCallable _ => None
  end.

(** [f(message, **kwargs)]: what is no callable gives a [TypeError]. *)
Definition fn_call {JobResult : Type} (f : JobFunction JobResult)
    (message : Message.t) (kwargs : pydict) : result JobResult :=
  match f with
  | Callable _ call => call message kwargs
  | NotCallable _ => Raise TypeError
  end.

(** [f is None] *)
Definition fn_is_none {JobResult : Type} (f : JobFunction JobResult) : bool :=
  match f with
  | NotCallable PNone => true
  | _ => false
  end.

(** [x[k]] for a string [k]: only a dictionary is indexed by a string. *)
Definition py_subscript (x : pyval) (k : string) : result pyval :=
  match x with
  | PDict d =>
      match dict_lookup k d with
      | Some v => Ok v
      | None => Raise KeyError
      end
  | _ => Raise TypeError
  end.

(** [x.items()] *)
Definition py_items (x : pyval) : result pydict :=
  match x with
  | PDict d => Ok d
  | _ => Raise AttributeError
  end.

Module Job.

Record t (JobResult : Type) : Type := Build {
  job_id : string;
  params : pyval;
  job_function : JobFunction JobResult;
  (** message.id -> job_result *)
  job_results : gmap string JobResult
}.
Arguments Build {JobResult} _ _ _ _.
Arguments job_id {JobResult} _.
Arguments params {JobResult} _.
Arguments job_function {JobResult} _.
Arguments job_results {JobResult} _.

Section Methods.

Context {JobResult : Type}.

(** The module [phospho.lab.job_library], which is not among the sources:
    its attributes, by name.  Besides the job functions it defines, a
    module has [__name__], [__doc__] and the names it imports. *)
Variable job_library : gmap string (JobFunction JobResult).

(** [getattr(job_library, job_name)] *)
Definition lookup_job (job_name : pyval) : result (JobFunction JobResult) :=
  match job_name with
  | PStr n =>
      match job_library !! n with
      | Some f => Ok f
      | None => Raise AttributeError
      end
  | _ => Raise TypeError
  end.

(** [Job.__init__]; an absent argument is [None].  The [assert] stops a
    job function that is [None]; where the id is the name of the job, the
    name is a string, the lookup having returned. *)
Definition init
    (job_function : JobFunction JobResult) (job_name : pyval)
    (job_id : option string) (params : pyval) : result (t JobResult) :=
  let params := if is_none params then PDict [] else params in
  if fn_is_none job_function && is_none job_name then Raise ValueError
  else
    job_function ←
      (if is_none job_name then Ok job_function else lookup_job job_name);
    if fn_is_none job_function then Raise AssertionError
    else
      job_id ←
        (match job_id, job_name with
         | Some i, _ => Ok i
         | None, PStr n => Ok n
         | None, _ =>
             match fn_name job_function with
             | Some n => Ok n
             | None => Raise AttributeError
             end
         end);
      Ok (Build job_id params job_function ∅).

(** [self.job_function(message, **self.params)]: the keyword arguments
    must come from a mapping. *)
Definition call (self : t JobResult) (message : Message.t)
  : result JobResult :=
  match params self with
  | PDict kwargs => fn_call (job_function self) message kwargs
  | _ => Raise TypeError
  end.

(** [Job.run]: what the call gives, and the job after it. *)
Definition run (self : t JobResult) (message : Message.t)
  : result JobResult * t JobResult :=
  match call self message with
  | Ok result =>
      (Ok result,
       Build (job_id self) (params self) (job_function self)
             (<[Message.id message := result]> (job_results self)))
  | Raise e => (Raise e, self)
  end.

End Methods.

End Job.

Module Workload.

Record t (JobResult : Type) : Type := Build {
  jobs : list (Job.t JobResult);
  results : gmap string (gmap string JobResult)
}.
Arguments Build {JobResult} _ _.
Arguments jobs {JobResult} _.
Arguments results {JobResult} _.

Section Methods.

Context {JobResult : Type}.
Variable job_library : gmap string (JobFunction JobResult).

(** [Workload.__init__] *)
Definition init : t JobResult := Build [] ∅.

Definition add_job (self : t JobResult) (job : Job.t JobResult)
  : t JobResult :=
  Build (jobs self ++ [job]) (results self).

(** The loop of [from_config] over the items of [config["jobs"]]. *)
Fixpoint add_configured (items : pydict) (workload : t JobResult)
  : result (t JobResult) :=
  match items with
  | [] => Ok workload
  | (job_id, job_config) :: items' =>
      job_name ← py_subscript job_config "name";
      params ← py_get job_config "params" (PDict []);
      job ← Job.init job_library (NotCallable PNone) job_name (Some job_id)
              params;
      add_configured items' (add_job workload job)
  end.

Definition from_config (config : pyval) : result (t JobResult) :=
  job_configs ← py_subscript config "jobs";
  items ← py_items job_configs;
  add_configured items init.

(** [for one_message in messages: job.run(one_message)]: the first
    exception ends the loop. *)
Fixpoint run_sequential (job : Job.t JobResult) (messages : list Message.t)
  : result unit * Job.t JobResult :=
  match messages with
  | [] => (Ok (), job)
  | one_message :: messages' =>
      match Job.run job one_message with
      | (Ok _, job') => run_sequential job' messages'
      | (Raise e, job') => (Raise e, job')
      end
  end.

(** [executor.map(job.run, messages)] in a [ThreadPoolExecutor] that is
    shut down on leaving the [with] block: every call has run, and the
    iterator that would re-raise an exception of a call is never read.
    The calls are taken here in the order of the messages: for messages
    of distinct ids, which store under distinct keys, any other order
    leaves the same job. *)
Fixpoint run_parallel (job : Job.t JobResult) (messages : list Message.t)
  : Job.t JobResult :=
  match messages with
  | [] => job
  | one_message :: messages' =>
      run_parallel (Job.run job one_message).2 messages'
  end.

(** The first loop of [run], over the jobs. *)
Fixpoint run_jobs (jobs : list (Job.t JobResult))
    (messages : list Message.t) (executor_type : string)
  : result unit * list (Job.t JobResult) :=
  match jobs with
  | [] => (Ok (), [])
  | job :: jobs' =>
      if String.eqb executor_type "parallel" then
        let job' := run_parallel job messages in
        let '(r, jobs'') := run_jobs jobs' messages executor_type in
        (r, job' :: jobs'')
      else if String.eqb executor_type "sequential" then
        match run_sequential job messages with
        | (Ok _, job') =>
            let '(r, jobs'') := run_jobs jobs' messages executor_type in
            (r, job' :: jobs'')
        | (Raise e, job') => (Raise e, job' :: jobs')
        end
      else (Raise NotImplementedError, job :: jobs')
  end.

(** [results[one_message.id][job.job_id] = job.job_results[one_message.id]]
    for every job. *)
Fixpoint collect_row (jobs : list (Job.t JobResult)) (message_id : string)
    (row : gmap string JobResult) : result (gmap string JobResult) :=
  match jobs with
  | [] => Ok row
  | job :: jobs' =>
      match Job.job_results job !! message_id with
      | Some r => collect_row jobs' message_id (<[Job.job_id job := r]> row)
      | None => Raise KeyError
      end
  end.

(** The second loop of [run], over the messages. *)
Fixpoint collect (messages : list Message.t) (jobs : list (Job.t JobResult))
    (results : gmap string (gmap string JobResult))
  : result (gmap string (gmap string JobResult)) :=
  match messages with
  | [] => Ok results
  | one_message :: messages' =>
      row ← collect_row jobs (Message.id one_message) ∅;
      collect messages' jobs (<[Message.id one_message := row]> results)
  end.

(** [Workload.run]: the table it returns or the exception it raises, and
    the workload after it.  The messages are a list, which both loops
    go through. *)
Definition run (self : t JobResult) (messages : list Message.t)
    (executor_type : string)
  : result (gmap string (gmap string JobResult)) * t JobResult :=
  let old_results := results self in
  match run_jobs (jobs self) messages executor_type with
  | (Raise e, jobs') => (Raise e, Build jobs' old_results)
  | (Ok _, jobs') =>
      match collect messages jobs' ∅ with
      | Ok results => (Ok results, Build jobs' results)
      | Raise e => (Raise e, Build jobs' old_results)
      end
  end.

End Methods.

End Workload.

(** A host for evaluating the embedding on inputs that involve no JSON
    text and no coercion of a list: there it answers with the failure, and
    every value prints as the same text. *)
Definition bare_host : host :=
  {| json_loads := fun _ => None;
     decode := fun b => Some b;
     py_repr := fun _ => "<object>";
     dict_of_list := fun _ => DictTypeError;
     filter_non_mapping := fun _ => Raise AttributeError |}.

(** A host that reads the JSON texts [{}], [[]] and [null] and prints the
    values they stand for; it is for these texts and for texts that are not
    JSON, on which it answers with the failure. *)
Definition literal_host : host :=
  {| json_loads := fun s =>
       if String.eqb s "{}" then Some (PDict [])
       else if String.eqb s "[]" then Some (PList [])
       else if String.eqb s "null" then Some PNone
       else None;
     decode := fun b => Some b;
     py_repr := fun x =>
       match x with
       | PDict [] => "{}"
       | PList [] => "[]"
       | PNone => "None"
       | _ => "<object>"
       end;
     dict_of_list := fun l =>
       match l with [] => DictOk [] | _ => DictTypeError end;
     filter_non_mapping := fun _ => Raise AttributeError |}.

(** The usage [extract_metadata_from_input_output] works with: what the
    usage function it is given returns, and by default what
    [detect_usage_from_input_output] does. *)
Definition usage_of (f : option (pyval -> pyval -> result pyval))
    (input output : pyval) : result pyval :=
  match f with
  | None => Ok (detect_usage_from_input_output input output)
  | Some f => f input output
  end.

(** The shapes [detect_str_from_output] looks into: bytes, dictionaries
    and pydantic models. *)
Definition sniffed_shape (x : pyval) : bool :=
  match x with
  | PBytes _ | PDict _ | PModel _ _ => true
  | _ => false
  end.

(** A result that, if it is an exception, is an [AttributeError]. *)
Definition attribute_error_only {A : Type} (r : result A) : Prop :=
  match r with
  | Ok _ => True
  | Raise e => e = AttributeError
  end.

(** ** Notions of the specification *)

(** The shapes [extract_data_from_output] documents for its arguments:
    [None], a string, a dictionary, a pydantic model. *)
Definition documented_shape (x : pyval) : bool :=
  match x with
  | PNone | PStr _ | PDict _ | PModel _ _ => true
  | _ => false
  end.

(** The mapping a dictionary or a model stands for. *)
Definition as_mapping (x : pyval) : option pydict :=
  match x with
  | PDict d => Some d
  | PModel _ fs => Some (model_dump fs)
  | _ => None
  end.

(** The structured representation of a value of a documented shape: the
    value itself if it is serializable, else its mapping without the
    fields that are not. *)
Definition structured (x : pyval) : pyval :=
  if is_jsonable x then x
  else PDict (filter_nonjsonable_keys (default [] (as_mapping x))).

(** The string representation [extract_data_from_output] logs. *)
Definition content_str (h : host) (f : option (pyval -> result pyval))
    (output : pyval) : result pyval :=
  match output with
  | PNone | PStr _ => Ok output
  | _ => default (detect_str_from_output h) f output
  end.

(** The prompt of an OpenAI-like input: the content of its last message,
    when that is a mapping and the content is not [None]. *)
Definition prompt_of (input : pyval) : option pyval :=
  match last_message input with
  | Some (PDict m) =>
      match dict_lookup "content" m with
      | Some c => if is_none c then None else Some c
      | None => None
      end
  | _ => None
  end.

(** The last message of an input, if there is one, is a mapping. *)
Definition messages_well_formed (input : pyval) : bool :=
  match last_message input with
  | Some (PDict _) | None => true
  | Some _ => false
  end.

(** A job with another [job_results]. *)
Definition with_results {JobResult : Type} (job : Job.t JobResult)
    (rs : gmap string JobResult) : Job.t JobResult :=
  Job.Build (Job.job_id job) (Job.params job) (Job.job_function job) rs.

(** What the calls of a job on a list of messages store, one after the
    other, in a [job_results] dictionary. *)
Definition stored {JobResult : Type} (job : Job.t JobResult)
    (messages : list Message.t) (acc : gmap string JobResult)
  : gmap string JobResult :=
  foldl (fun acc m =>
           match Job.call job m with
           | Ok r => <[Message.id m := r]> acc
           | Raise _ => acc
           end) acc messages.

(** The names under which a job library has a job function: a callable. *)
Definition registered {JobResult : Type}
    (job_library : gmap string (JobFunction JobResult)) (n : string) : bool :=
  match job_library !! n with
  | Some (Callable _ _) => true
  | _ => false
  end.

(** The name a job configuration gives, when the configuration is a
    mapping and the name a string. *)
Definition job_name_of (job_config : pyval) : option string :=
  match job_config with
  | PDict c =>
      match dict_lookup "name" c with
      | Some (PStr n) => Some n
      | _ => None
      end
  | _ => None
  end.

(** The provider records of the spec, as dictionaries: a streaming chunk
    with a given [delta.content], and a completion with a given text. *)
Definition chunk_record (content : pyval) : pydict :=
  [("object", PStr "chat.completion.chunk");
   ("choices", PList [PDict [("delta", PDict [("content", content)])]])].

Definition completion_record (text : string) : pydict :=
  [("choices",
    PList [PDict [("message",
                   PDict [("role", PStr "assistant");
                          ("content", PStr text)])]]);
   ("model", PStr "gpt-x")].

(** An OpenAI-like input whose last message has the given content. *)
Definition chat_input (content : pyval) : pydict :=
  [("model", PStr "gpt-x");
   ("messages",
    PList [PDict [("role", PStr "system"); ("content", PStr "Be brief.")];
           PDict [("role", PStr "user"); ("content", content)]])].

(** A job library with one job function, which measures the content of a
    message, and the name and the absent documentation of the module; two
    messages, and a configuration that names a job the library has and one
    it has not. *)
Definition content_length : JobFunction nat :=
  Callable (Some "content_length")
    (fun m _ => Ok (String.length (Message.content m))).

Definition sample_library : gmap string (JobFunction nat) :=
  <["__name__" := NotCallable (PStr "phospho.lab.job_library")]>
    (<["__doc__" := NotCallable PNone]>
       {[ "content_length" := content_length ]}).

Definition sample_messages : list Message.t :=
  [Message.Build "m1" Message.user "Hello";
   Message.Build "m2" Message.assistant "Hi there"].

Definition sample_job : Job.t nat :=
  Job.Build "length" (PDict []) content_length ∅.

(** A job function that raises on a message without content. *)
Definition first_letter : JobFunction nat :=
  Callable (Some "first_letter")
    (fun m _ =>
       match Message.content m with
       | EmptyString => Raise ValueError
       | String a _ => Ok (Ascii.nat_of_ascii a)
       end).

Definition sample_config : pydict :=
  [("jobs",
    PDict [("length", PDict [("name", PStr "content_length")]);
           ("mood", PDict [("name", PStr "sentiment");
                           ("params", PDict [("scale", PInt 5)])])])].

(** A job after its calls on a list of messages, the calls that raise
    apart. *)
Definition ran {JobResult : Type} (messages : list Message.t)
    (job : Job.t JobResult) : Job.t JobResult :=
  with_results job (stored job messages (Job.job_results job)).

(** The row of a message id in the table of [Workload.run]: what the jobs
    hold for it, by job id. *)
Definition row_of {JobResult : Type} (jobs : list (Job.t JobResult))
    (message_id : string) (acc : gmap string JobResult)
  : gmap string JobResult :=
  foldl (fun row job =>
           match Job.job_results job !! message_id with
           | Some r => <[Job.job_id job := r]> row
           | None => row
           end) acc jobs.

(** The table of [Workload.run]: a row for the id of every message. *)
Definition table_of {JobResult : Type} (messages : list Message.t)
    (jobs : list (Job.t JobResult))
    (acc : gmap string (gmap string JobResult))
  : gmap string (gmap string JobResult) :=
  foldl (fun table m =>
           <[Message.id m := row_of jobs (Message.id m) ∅]> table)
        acc messages.

(** Every job holds a result for every message. *)
Definition complete {JobResult : Type} (messages : list Message.t)
    (jobs : list (Job.t JobResult)) : Prop :=
  Forall (fun m =>
            Forall (fun job =>
                      is_Some (Job.job_results job !! Message.id m)) jobs)
         messages.

(** The job a configuration entry stands for, if it is a mapping that
    names an attribute of the library other than [None], a function of the
    library above all: its id is the key, its params are the configured
    ones, and none for [None]. *)
Definition job_of_config {JobResult : Type}
    (job_library : gmap string (JobFunction JobResult))
    (entry : string * pyval) : option (Job.t JobResult) :=
  match entry.2 with
  | PDict c =>
      match dict_lookup "name" c with
      | Some (PStr n) =>
          match job_library !! n with
          | Some f =>
              if fn_is_none f then None
              else
                let params := dict_get "params" (PDict []) c in
                Some (Job.Build entry.1
                        (if is_none params then PDict [] else params) f ∅)
          | None => None
          end
      | _ => None
      end
  | _ => None
  end.

(** The exception a configuration entry makes [from_config] raise, if it
    stands for no job. *)
Definition config_error {JobResult : Type}
    (job_library : gmap string (JobFunction JobResult))
    (job_config : pyval) : option exn :=
  match job_config with
  | PDict c =>
      match dict_lookup "name" c with
      | None => Some KeyError
      | Some PNone => Some ValueError
      | Some (PStr n) =>
          match job_library !! n with
          | Some f => if fn_is_none f then Some AssertionError else None
          | None => Some AttributeError
          end
      | Some _ => Some TypeError
      end
  | _ => Some TypeError
  end.

(** ** Properties of the extractor *)

Section ExtractorFacts.

Variable h : host.

Lemma bind_Ok {A B : Type} (r : result A) (k : A -> result B) (b : B) :
  r ≫= k = Ok b -> exists a, r = Ok a /\ k a = Ok b.
Proof. destruct r as [a|e]; [eauto|discriminate]. Qed.

Lemma loggable_documented (x : pyval) :
  documented_shape x = true -> loggable h x = Ok (structured x).
Proof.
  unfold loggable, structured, loggable_dict.
  destruct x; try discriminate; intros _; cbn; try reflexivity.
  destruct (forallb _ d); reflexivity.
Qed.

Lemma dict_get_lookup (k : string) (v dflt : pyval) (d : pydict) :
  dict_lookup k d = Some v -> dict_get k dflt d = v.
Proof. unfold dict_get. now intros ->. Qed.

Lemma dict_get_absent (k : string) (dflt : pyval) (d : pydict) :
  dict_lookup k d = None -> dict_get k dflt d = dflt.
Proof. unfold dict_get. now intros ->. Qed.

(** A plain record has no conversion to a dictionary: the error of
    [convert_to_dict] leaves [extract_data_from_output]. *)
Lemma extract_data_from_output_record (cls : string) (attrs : pydict)
    (raw : pyval) :
  extract_data_from_output h (PObj cls attrs) raw None
  = Raise NotImplementedError.
Proof. reflexivity. Qed.

(** Bytes that are not JSON text: [detect_str_from_output] keeps them and
    prints them, [extract_data_from_output] raises. *)
Lemma detect_str_from_output_bytes (b s : string) :
  decode h b = Some s -> json_loads h s = None ->
  detect_str_from_output h (PBytes b) = Ok (PStr (py_str h (PBytes b))).
Proof.
  intros Hb Hs. unfold detect_str_from_output. cbn. now rewrite Hb, Hs.
Qed.

Lemma extract_data_from_output_bytes (b s : string) (raw : pyval) :
  decode h b = Some s -> json_loads h s = None ->
  extract_data_from_output h (PBytes b) raw None = Raise JSONDecodeError.
Proof.
  intros Hb Hs. unfold extract_data_from_output. cbn [default].
  rewrite (detect_str_from_output_bytes b s Hb Hs).
  unfold loggable, loggable_dict. cbn. now rewrite Hb, Hs.
Qed.

(** The chunk branch, with [message] absent or [None] and [delta] absent
    or a mapping. *)
Lemma openai_dict_str_chunk (d c0 delta : pydict) (rest : list pyval) :
  dict_lookup "choices" d = Some (PList (PDict c0 :: rest)) ->
  dict_get "message" PNone c0 = PNone ->
  dict_get "delta" (PDict []) c0 = PDict delta ->
  openai_dict_str h d
  = Some (Ok (PStr (match dict_get "content" PNone delta with
                    | PNone => ""
                    | content => py_str h content
                    end))).
Proof.
  intros Hc Hm Hd. unfold openai_dict_str. rewrite Hc. cbn.
  rewrite Hm. cbn. rewrite Hd. cbn.
  now destruct (dict_get "content" PNone delta).
Qed.

Lemma detect_str_from_input_ok (input c : pyval) :
  detect_str_from_input h input = Ok c ->
  c = PStr (py_str h (default input (prompt_of input))).
Proof.
  unfold detect_str_from_input, prompt_of.
  destruct (last_message input) as [m|]; [|cbn; congruence].
  destruct m; cbn; try congruence.
  - destruct (is_infix "content" s); cbn; congruence.
  - destruct (existsb _ l); cbn; congruence.
  - unfold dict_mem, dict_get.
    destruct (dict_lookup "content" d) as [v|]; cbn; [|congruence].
    destruct (is_none v); cbn; congruence.
Qed.

Lemma detect_str_from_input_returns (input : pyval) :
  messages_well_formed input = true ->
  exists c, detect_str_from_input h input = Ok c.
Proof.
  unfold detect_str_from_input, messages_well_formed.
  destruct (last_message input) as [m|]; [|eauto].
  destruct m; try discriminate. intros _. cbn.
  destruct (dict_mem "content" d); cbn; [|eauto].
  destruct (is_none _); eauto.
Qed.

End ExtractorFacts.

(** The embedding on some payloads. *)

Example detect_str_from_output_ollama :
  detect_str_from_output bare_host
    (PDict [("model", PStr "llama"); ("response", PStr "Hi!")])
  = Ok (PStr "Hi!").
Proof. reflexivity. Qed.

Example detect_str_from_output_model_chunk_end :
  detect_str_from_output bare_host
    (PModel "ChatCompletionChunk"
       [("choices", PList [PModel "Choice" [("delta", PNone)]])])
  = Ok (PStr "").
Proof. reflexivity. Qed.

Example detect_str_from_output_model_completion :
  detect_str_from_output bare_host
    (PModel "ChatCompletion"
       [("choices",
         PList [PModel "Choice"
                  [("message",
                    PModel "ChatCompletionMessage"
                      [("content", PStr "Hello")])]])])
  = Ok (PStr "Hello").
Proof. reflexivity. Qed.

Example detect_str_from_output_null_delta :
  detect_str_from_output bare_host
    (PDict [("choices", PList [PDict [("delta", PNone)]])])
  = Raise AttributeError.
Proof. reflexivity. Qed.

Example detect_str_from_output_choice_not_mapping :
  detect_str_from_output bare_host (PDict [("choices", PList [PStr "stop"])])
  = Raise AttributeError.
Proof. reflexivity. Qed.

Example detect_str_from_input_chat :
  detect_str_from_input bare_host (PDict (chat_input (PStr "Hello?")))
  = Ok (PStr "Hello?").
Proof. reflexivity. Qed.

Example detect_str_from_input_text_message :
  detect_str_from_input bare_host
    (PDict [("messages", PList [PStr "the content"])])
  = Raise AttributeError.
Proof. reflexivity. Qed.

Example extract_data_from_output_none :
  extract_data_from_output bare_host PNone PNone None = Ok (PNone, PNone).
Proof. reflexivity. Qed.

Example extract_data_from_output_model :
  extract_data_from_output bare_host
    (PModel "Answer"
       [("text", PStr "hi"); ("raw", PBytes "hi");
        ("usage", PModel "Usage" [("total_tokens", PInt 42)])])
    PNone (Some (fun _ => Ok (PStr "hi")))
  = Ok (PStr "hi",
        PDict [("text", PStr "hi");
               ("usage", PDict [("total_tokens", PInt 42)])]).
Proof. reflexivity. Qed.

Example detect_model_from_input_output_input :
  detect_model_from_input_output (PDict (chat_input (PStr "Hello?")))
    (PDict (chunk_record (PStr "tok")))
  = PStr "gpt-x".
Proof. reflexivity. Qed.

(** ** Properties of jobs and workloads *)

Section LabFacts.

Context {JobResult : Type}.
Variable job_library : gmap string (JobFunction JobResult).

Implicit Types (job : Job.t JobResult) (m : Message.t).
Implicit Types (messages : list Message.t).

Lemma run_fst job m : (Job.run job m).1 = Job.call job m.
Proof. unfold Job.run. now destruct (Job.call job m). Qed.

Lemma call_with_results job rs m :
  Job.call (with_results job rs) m = Job.call job m.
Proof. reflexivity. Qed.

Lemma with_results_id job : with_results job (Job.job_results job) = job.
Proof. now destruct job. Qed.

Lemma stored_cons job m messages rs :
  stored job (m :: messages) rs
  = stored job messages (match Job.call job m with
                         | Ok r => <[Message.id m := r]> rs
                         | Raise _ => rs
                         end).
Proof. reflexivity. Qed.

Lemma run_sequential_stored job messages rs :
  (forall m, m ∈ messages -> exists r, Job.call job m = Ok r) ->
  Workload.run_sequential (with_results job rs) messages
  = (Ok (), with_results job (stored job messages rs)).
Proof.
  revert rs. induction messages as [|m0 ms IH]; intros rs Hall; [reflexivity|].
  destruct (Hall m0) as [r Hr]; [left|].
  rewrite stored_cons, Hr, <- IH.
  - cbn [Workload.run_sequential]. unfold Job.run.
    now rewrite call_with_results, Hr.
  - intros m Hm. apply Hall. now right.
Qed.

Lemma stored_other job messages rs (k : string) :
  k ∉ Message.id <$> messages -> stored job messages rs !! k = rs !! k.
Proof.
  revert rs. induction messages as [|m0 ms IH]; intros rs Hk; [reflexivity|].
  rewrite fmap_cons, not_elem_of_cons in Hk. destruct Hk as [Hne Hk].
  rewrite stored_cons, IH by assumption.
  destruct (Job.call job m0); [|reflexivity].
  now rewrite lookup_insert_ne.
Qed.

Lemma stored_lookup job messages rs m r :
  NoDup (Message.id <$> messages) ->
  m ∈ messages -> Job.call job m = Ok r ->
  stored job messages rs !! Message.id m = Some r.
Proof.
  revert rs. induction messages as [|m0 ms IH]; intros rs Hnd Hin Hr.
  - now apply elem_of_nil in Hin.
  - rewrite fmap_cons, NoDup_cons in Hnd. destruct Hnd as [Hfresh Hnd].
    rewrite stored_cons. apply elem_of_cons in Hin as [->|Hin].
    + rewrite Hr, stored_other by assumption. apply lookup_insert_eq.
    + now apply IH.
Qed.

Lemma collect_single job messages
    (acc : gmap string (gmap string JobResult)) :
  (forall m, m ∈ messages -> is_Some (Job.job_results job !! Message.id m)) ->
  exists table,
    Workload.collect messages [job] acc = Ok table /\
    (forall k, k ∉ Message.id <$> messages -> table !! k = acc !! k) /\
    (forall m r, m ∈ messages ->
       Job.job_results job !! Message.id m = Some r ->
       table !! Message.id m = Some {[Job.job_id job := r]}).
Proof.
  revert acc. induction messages as [|m0 ms IH]; intros acc Hall.
  - exists acc. split; [reflexivity|]. split; [reflexivity|].
    intros m r Hin. now apply elem_of_nil in Hin.
  - destruct (Hall m0) as [r0 Hr0]; [left|].
    destruct (IH (<[Message.id m0 := {[Job.job_id job := r0]}]> acc))
      as (table & Hrun & Hother & Hrows).
    { intros m Hm. apply Hall. now right. }
    exists table. split; [|split].
    + cbn. rewrite Hr0. cbn. exact Hrun.
    + intros k Hk. rewrite fmap_cons, not_elem_of_cons in Hk.
      destruct Hk as [Hne Hk]. rewrite Hother by assumption.
      now rewrite lookup_insert_ne.
    + intros m r Hin Hr. apply elem_of_cons in Hin as [->|Hin].
      * destruct (decide (Message.id m0 ∈ Message.id <$> ms)) as [Hdup|Hfresh].
        -- apply list_elem_of_fmap in Hdup as (m' & Heq & Hm').
           rewrite Heq. apply Hrows; [assumption|]. now rewrite <- Heq.
        -- rewrite Hother by assumption. rewrite lookup_insert_eq.
           congruence.
      * now apply Hrows.
Qed.

Lemma run_jobs_unsupported (jobs : list (Job.t JobResult)) messages
    (executor_type : string) :
  executor_type <> "parallel" -> executor_type <> "sequential" ->
  jobs <> [] ->
  Workload.run_jobs jobs messages executor_type
  = (Raise NotImplementedError, jobs).
Proof.
  intros Hp Hs Hne. destruct jobs as [|job jobs']; [congruence|].
  cbn. apply String.eqb_neq in Hp, Hs. now rewrite Hp, Hs.
Qed.

Lemma init_registered (n job_id : string) (params : pyval)
    (f : JobFunction JobResult) :
  job_library !! n = Some f -> fn_is_none f = false ->
  Job.init job_library (NotCallable PNone) (PStr n) (Some job_id) params
  = Ok (Job.Build job_id (if is_none params then PDict [] else params) f ∅).
Proof. intros Hf Hn. unfold Job.init. cbn. rewrite Hf. cbn. now rewrite Hn. Qed.

Lemma init_unregistered (n job_id : string) (params : pyval) :
  job_library !! n = None ->
  Job.init job_library (NotCallable PNone) (PStr n) (Some job_id) params
  = Raise AttributeError.
Proof. intros Hf. unfold Job.init. cbn. now rewrite Hf. Qed.

Lemma init_none_attribute (n job_id : string) (params : pyval)
    (f : JobFunction JobResult) :
  job_library !! n = Some f -> fn_is_none f = true ->
  Job.init job_library (NotCallable PNone) (PStr n) (Some job_id) params
  = Raise AssertionError.
Proof. intros Hf Hn. unfold Job.init. cbn. rewrite Hf. cbn. now rewrite Hn. Qed.

Lemma fn_is_none_spec (f : JobFunction JobResult) :
  fn_is_none f = true <-> f = NotCallable PNone.
Proof.
  destruct f as [name call|v]; cbn; [split; discriminate|].
  destruct v; split; intros H; try discriminate; reflexivity.
Qed.

Lemma add_configured_unknown (items : pydict) (w : Workload.t JobResult) :
  Forall (fun kv => exists n, job_name_of kv.2 = Some n /\
                              job_library !! n <> Some (NotCallable PNone))
         items ->
  Exists (fun kv => exists n, job_name_of kv.2 = Some n /\
                              job_library !! n = None) items ->
  Workload.add_configured job_library items w = Raise AttributeError.
Proof.
  intros Hwf Hex. revert w.
  induction items as [|[job_id job_config] items IH]; intros w.
  - now apply Exists_nil in Hex.
  - apply Forall_cons in Hwf as [(n & Hn & Hsome) Hwf]. cbn in Hn.
    unfold job_name_of in Hn.
    destruct job_config as [| | | | | |c| |]; try discriminate.
    destruct (dict_lookup "name" c) as [v|] eqn:Hname; [|discriminate].
    destruct v; try discriminate. injection Hn as ->.
    cbn [Workload.add_configured py_subscript]. rewrite Hname.
    cbn [mbind result_bind py_get].
    destruct (job_library !! n) as [f|] eqn:Hf.
    + rewrite (init_registered n job_id _ f Hf).
      * cbn [mbind result_bind]. apply IH; [assumption|].
        apply Exists_cons in Hex as [(n' & Hn' & Hnone)|Hex]; [|assumption].
        cbn in Hn'. rewrite Hname in Hn'. injection Hn' as <-. congruence.
      * destruct (fn_is_none f) eqn:Hnone; [|reflexivity].
        apply fn_is_none_spec in Hnone. congruence.
    + now rewrite init_unregistered.
Qed.

End LabFacts.

(** The lab on some workloads. *)

(** Without a job, no mode is looked at: the table has an empty row for
    every message. *)
Example workload_run_no_job :
  (Workload.run (@Workload.init nat) sample_messages "threads").1
  = Ok (<["m2" := ∅]> (<["m1" := ∅]> ∅)).
Proof. reflexivity. Qed.

(** A call that raises ends a sequential run with its exception; in a
    parallel run the exception is lost and the table cannot be built. *)
Example workload_run_sequential_raises :
  (Workload.run
     (Workload.Build [Job.Build "letter" PNone first_letter ∅] ∅)
     [Message.Build "m1" Message.user ""] "sequential").1
  = Raise TypeError /\
  (Workload.run
     (Workload.Build [Job.Build "letter" (PDict []) first_letter ∅] ∅)
     [Message.Build "m1" Message.user ""] "sequential").1
  = Raise ValueError.
Proof. split; reflexivity. Qed.

Example workload_run_parallel_loses_exception :
  (Workload.run
     (Workload.Build [Job.Build "letter" (PDict []) first_letter ∅] ∅)
     [Message.Build "m1" Message.user ""] "parallel").1
  = Raise KeyError.
Proof. reflexivity. Qed.

Example from_config_registered :
  Workload.jobs <$>
    Workload.from_config sample_library
      (PDict [("jobs", PDict [("length",
                               PDict [("name", PStr "content_length")])])])
  = Ok [Job.Build "length" (PDict []) content_length ∅].
Proof. reflexivity. Qed.

(** ** The extractor: the claims *)

(** C1, as it is stated, fails: on a plain record, which is not
    serializable and has no conversion to a dictionary,
    [extract_data_from_output] raises the [NotImplementedError] of
    [convert_to_dict]. *)
Lemma extract_data_from_output_span_raises :
  extract_data_from_output bare_host
    (PObj "Span" [("name", PStr "llm-call")]) PNone None
  = Raise NotImplementedError.
Proof. apply extract_data_from_output_record. Qed.

(** C1, amended.  On an output that is [None], a string, a dictionary or a
    pydantic model (and a raw output of these shapes),
    [extract_data_from_output] raises only if the function that extracts
    the string does: the structured representation is the value itself if
    it is serializable, and else its mapping without the fields that are
    not.  On a plain record the [NotImplementedError] of [convert_to_dict]
    reaches the caller. *)
Theorem extract_data_from_output_documented (h : host) :
  (forall (output raw_output : pyval) (f : option (pyval -> result pyval)),
      documented_shape output = true ->
      documented_shape raw_output = true ->
      extract_data_from_output h output raw_output f
      = (s ← content_str h f output;
         Ok (s, structured
                  (if is_none raw_output then output else raw_output)))) /\
  (forall (cls : string) (attrs : pydict) (raw_output : pyval),
      extract_data_from_output h (PObj cls attrs) raw_output None
      = Raise NotImplementedError).
Proof.
  split; [|apply extract_data_from_output_record].
  intros output raw_output f Ho Hr.
  unfold extract_data_from_output, content_str.
  rewrite (loggable_documented h raw_output Hr).
  pose proof (loggable_documented h output Ho) as Lo.
  destruct output; try discriminate.
  - now destruct raw_output.
  - now destruct raw_output.
  - rewrite Lo.
    destruct (default (detect_str_from_output h) f (PDict d)); [|reflexivity].
    now destruct raw_output.
  - rewrite Lo.
    destruct (default (detect_str_from_output h) f (PModel cls fields));
      [|reflexivity].
    now destruct raw_output.
Qed.

(** A dictionary with a field of bytes loses that field. *)
Lemma extract_data_from_output_documented_witness :
  extract_data_from_output bare_host
    (PDict [("text", PStr "hi"); ("blob", PBytes "raw")]) PNone None
  = Ok (PStr "<object>", PDict [("text", PStr "hi")]).
Proof.
  exact (proj1 (extract_data_from_output_documented bare_host)
           (PDict [("text", PStr "hi"); ("blob", PBytes "raw")]) PNone None
           eq_refl eq_refl).
Defined.

(** C2.  [convert_to_dict] returns a dictionary as it is, and on a string it
    returns what [json.loads] parses, raising [JSONDecodeError] exactly when
    the text is not JSON (and no other exception). *)
Theorem convert_to_dict_dict_and_str (h : host) :
  (forall d : pydict, convert_to_dict h (PDict d) = Ok (PDict d)) /\
  (forall s : string,
      (forall v, json_loads h s = Some v <-> convert_to_dict h (PStr s) = Ok v) /\
      (json_loads h s = None <->
       convert_to_dict h (PStr s) = Raise JSONDecodeError) /\
      (forall e, convert_to_dict h (PStr s) = Raise e <->
                 json_loads h s = None /\ e = JSONDecodeError)).
Proof.
  split; [reflexivity|].
  intros s. cbn. destruct (json_loads h s) as [v|]; repeat split;
    intros; try congruence; try tauto; try (destruct H; congruence).
Qed.

(** C3.  On a dictionary whose [choices] is a non-empty list, whose first
    element is a mapping without a [message] and with a [delta] that is a
    mapping (or with no [delta], which the code reads as the empty
    mapping), [detect_str_from_output] returns the string form of
    [delta.content], and the empty string when it is [None] or absent. *)
Theorem detect_str_from_output_chunk
    (h : host) (d c0 delta : pydict) (rest : list pyval) :
  dict_lookup "choices" d = Some (PList (PDict c0 :: rest)) ->
  dict_lookup "message" c0 = None ->
  dict_get "delta" (PDict []) c0 = PDict delta ->
  detect_str_from_output h (PDict d)
  = Ok (PStr (match dict_get "content" PNone delta with
              | PNone => ""
              | content => py_str h content
              end)).
Proof.
  intros Hc Hm Hd. unfold detect_str_from_output. cbn.
  rewrite (openai_dict_str_chunk h d c0 delta rest Hc).
  - reflexivity.
  - now apply dict_get_absent.
  - exact Hd.
Qed.

(** The two chunks of the spec: a token, and the end of the stream. *)
Lemma detect_str_from_output_chunk_witness :
  detect_str_from_output bare_host (PDict (chunk_record (PStr "tok")))
  = Ok (PStr "tok") /\
  detect_str_from_output bare_host (PDict (chunk_record PNone))
  = Ok (PStr "").
Proof.
  split.
  - exact (detect_str_from_output_chunk bare_host
             (chunk_record (PStr "tok"))
             [("delta", PDict [("content", PStr "tok")])]
             [("content", PStr "tok")] [] eq_refl eq_refl eq_refl).
  - exact (detect_str_from_output_chunk bare_host
             (chunk_record PNone)
             [("delta", PDict [("content", PNone)])]
             [("content", PNone)] [] eq_refl eq_refl eq_refl).
Defined.

(** C4.  On a dictionary whose [choices] is a non-empty list whose first
    element has a [message] with the string [X] as [content],
    [detect_str_from_output] returns [X]. *)
Theorem detect_str_from_output_completion
    (h : host) (d c0 message : pydict) (rest : list pyval) (X : string) :
  dict_lookup "choices" d = Some (PList (PDict c0 :: rest)) ->
  dict_lookup "message" c0 = Some (PDict message) ->
  dict_lookup "content" message = Some (PStr X) ->
  detect_str_from_output h (PDict d) = Ok (PStr X).
Proof.
  intros Hc Hm Hx. unfold detect_str_from_output, openai_dict_str. cbn.
  rewrite Hc. cbn. rewrite (dict_get_lookup _ _ _ _ Hm). cbn.
  now rewrite (dict_get_lookup _ _ _ _ Hx).
Qed.

(** The completion of the spec. *)
Lemma detect_str_from_output_completion_witness :
  detect_str_from_output bare_host (PDict (completion_record "X"))
  = Ok (PStr "X").
Proof.
  exact (detect_str_from_output_completion bare_host
           (completion_record "X")
           [("message", PDict [("role", PStr "assistant"); ("content", PStr "X")])]
           [("role", PStr "assistant"); ("content", PStr "X")] [] "X"
           eq_refl eq_refl eq_refl).
Defined.

(** C5.  [extract_data_from_input] returns a string [s] twice.  With the
    default string function, whatever it returns has a string as its first
    component, never [None]: the content of the last message when the
    input has one, and else [str(input)]; with a string function of the
    declared type, which returns strings, the first component is a string
    as well.  And the call does return on every input of a documented
    shape whose last message, if any, is a mapping. *)
Theorem extract_data_from_input_content_str (h : host) :
  (forall (s : string) (f : option (pyval -> result pyval)),
      extract_data_from_input h (PStr s) PNone f = Ok (PStr s, PStr s)) /\
  (forall input raw_input c r,
      extract_data_from_input h input raw_input None = Ok (c, r) ->
      c = PStr (py_str h (default input (prompt_of input)))) /\
  (forall input raw_input (f : pyval -> result pyval) c r,
      (forall v, f input = Ok v -> exists s, v = PStr s) ->
      extract_data_from_input h input raw_input (Some f) = Ok (c, r) ->
      exists s, c = PStr s) /\
  (forall input raw_input,
      documented_shape input = true ->
      documented_shape raw_input = true ->
      messages_well_formed input = true ->
      exists c r, extract_data_from_input h input raw_input None = Ok (c, r)).
Proof.
  assert (forall input raw f c r,
             extract_data_from_input h input raw f = Ok (c, r) ->
             match input with
             | PStr _ => c = input
             | _ => default (detect_str_from_input h) f input = Ok c
             end) as Hfirst.
  { intros input raw f c r. unfold extract_data_from_input. intros Hrun.
    apply bind_Ok in Hrun as ([c0 r0] & Hfst & Hrun).
    apply bind_Ok in Hrun as (r1 & _ & Hrun). injection Hrun as -> _.
    destruct input;
      try (apply bind_Ok in Hfst as (c1 & Hc & Hfst);
           apply bind_Ok in Hfst as (r2 & _ & Hfst); injection Hfst as -> _;
           exact Hc).
    now injection Hfst as <- _. }
  split; [reflexivity|]. split; [|split].
  - intros input raw c r Hrun. apply Hfirst in Hrun.
    destruct input; try (now apply detect_str_from_input_ok).
    exact Hrun.
  - intros input raw f c r Hf Hrun. apply Hfirst in Hrun.
    destruct input; try (now apply Hf). eauto.
  - intros input raw Hi Hr Hm. unfold extract_data_from_input.
    rewrite (loggable_documented h raw Hr).
    pose proof (loggable_documented h input Hi) as Li.
    destruct (detect_str_from_input_returns h input Hm) as [c Hc].
    destruct input; try discriminate; cbn [default];
      try rewrite Hc; try rewrite Li; destruct raw; cbn; eauto.
Qed.

(** On a chat input the content logged is the last message's. *)
Lemma extract_data_from_input_content_str_witness :
  PStr "Hello?"
  = PStr (py_str bare_host
            (default (PDict (chat_input (PStr "Hello?")))
                     (prompt_of (PDict (chat_input (PStr "Hello?")))))) /\
  exists c r,
    extract_data_from_input bare_host (PDict (chat_input (PStr "Hello?")))
      PNone None = Ok (c, r).
Proof.
  split.
  - exact (proj1 (proj2 (extract_data_from_input_content_str bare_host))
             (PDict (chat_input (PStr "Hello?"))) PNone
             (PStr "Hello?") (PDict (chat_input (PStr "Hello?"))) eq_refl).
  - exact (proj2 (proj2 (proj2 (extract_data_from_input_content_str bare_host)))
             (PDict (chat_input (PStr "Hello?"))) PNone
             eq_refl eq_refl eq_refl).
Defined.

(** C6.  [detect_usage_from_input_output] looks at the mapping of the
    output (the dictionary itself, the dump of a model): it returns its
    [usage] if it has one; else the dictionary with [completion_tokens]
    1 if its [object] is the string [chat.completion.chunk]; else [None];
    and [None] on an output that is neither a dictionary nor a model. *)
Theorem detect_usage_from_input_output_cases (input output : pyval) :
  (forall d u,
      as_mapping output = Some d -> dict_lookup "usage" d = Some u ->
      detect_usage_from_input_output input output = u) /\
  (forall d,
      as_mapping output = Some d -> dict_lookup "usage" d = None ->
      dict_lookup "object" d = Some (PStr "chat.completion.chunk") ->
      detect_usage_from_input_output input output
      = PDict [("completion_tokens", PInt 1)]) /\
  (forall d,
      as_mapping output = Some d -> dict_lookup "usage" d = None ->
      dict_lookup "object" d <> Some (PStr "chat.completion.chunk") ->
      detect_usage_from_input_output input output = PNone) /\
  (as_mapping output = None ->
   detect_usage_from_input_output input output = PNone).
Proof.
  assert (forall d, as_mapping output = Some d ->
            detect_usage_from_input_output input output
            = match dict_lookup "usage" d with
              | Some u => u
              | None =>
                  if is_str "chat.completion.chunk" (dict_get "object" PNone d)
                  then PDict [("completion_tokens", PInt 1)]
                  else PNone
              end) as Hmap.
  { intros d Hd. destruct output; try discriminate;
      injection Hd as <-; reflexivity. }
  repeat split.
  - intros d u Hd Hu. now rewrite (Hmap d Hd), Hu.
  - intros d Hd Hu Ho. rewrite (Hmap d Hd), Hu.
    now rewrite (dict_get_lookup _ _ _ _ Ho).
  - intros d Hd Hu Ho. rewrite (Hmap d Hd), Hu.
    unfold dict_get. destruct (dict_lookup "object" d) as [v|]; [|reflexivity].
    destruct v; try reflexivity. cbn [is_str].
    destruct (String.eqb_spec s "chat.completion.chunk") as [->|]; congruence.
  - intros Hn. now destruct output.
Qed.

(** The usage of a completion model, and the one token of a chunk. *)
Lemma detect_usage_from_input_output_cases_witness :
  detect_usage_from_input_output (PDict (chat_input (PStr "Hello?")))
    (PModel "ChatCompletion"
       [("usage", PModel "CompletionUsage" [("total_tokens", PInt 42)])])
  = PDict [("total_tokens", PInt 42)] /\
  detect_usage_from_input_output PNone (PDict (chunk_record (PStr "tok")))
  = PDict [("completion_tokens", PInt 1)].
Proof.
  split.
  - exact (proj1 (detect_usage_from_input_output_cases
                    (PDict (chat_input (PStr "Hello?")))
                    (PModel "ChatCompletion"
                       [("usage", PModel "CompletionUsage"
                                    [("total_tokens", PInt 42)])]))
             [("usage", PDict [("total_tokens", PInt 42)])]
             (PDict [("total_tokens", PInt 42)])
             eq_refl eq_refl).
  - exact (proj1 (proj2 (detect_usage_from_input_output_cases
                           PNone (PDict (chunk_record (PStr "tok")))))
             (chunk_record (PStr "tok")) eq_refl eq_refl eq_refl).
Defined.

(** ** The lab: the claims *)

(** C7.  A workload of one job, run in sequential mode over messages of
    distinct ids on each of which the job alone returns, returns a table
    whose entry for a message and the job is what [Job.run] returns on
    that message. *)
Theorem workload_run_sequential_one_job {JobResult : Type}
    (job : Job.t JobResult) (old : gmap string (gmap string JobResult))
    (messages : list Message.t) :
  NoDup (Message.id <$> messages) ->
  (forall m, m ∈ messages -> exists r, (Job.run job m).1 = Ok r) ->
  exists table w',
    Workload.run (Workload.Build [job] old) messages "sequential"
    = (Ok table, w') /\
    forall m, m ∈ messages ->
      exists r, (Job.run job m).1 = Ok r /\
                table !! Message.id m ≫= (.!! Job.job_id job) = Some r.
Proof.
  intros Hnd Hall.
  assert (forall m, m ∈ messages -> exists r, Job.call job m = Ok r) as Hcall.
  { intros m Hm. destruct (Hall m Hm) as [r Hr]. rewrite run_fst in Hr. eauto. }
  pose proof (run_sequential_stored job messages (Job.job_results job) Hcall)
    as Hseq.
  rewrite with_results_id in Hseq.
  set (job' := with_results job (stored job messages (Job.job_results job)))
    in *.
  destruct (collect_single job' messages ∅) as (table & Hcol & _ & Hrows).
  { intros m Hm. destruct (Hcall m Hm) as [r Hr]. exists r.
    now apply stored_lookup. }
  exists table, (Workload.Build [job'] table). split.
  - unfold Workload.run. cbn [Workload.jobs Workload.run_jobs String.eqb].
    cbn [Ascii.eqb Bool.eqb]. rewrite Hseq. cbn [Workload.run_jobs].
    now rewrite Hcol.
  - intros m Hm. destruct (Hcall m Hm) as [r Hr]. exists r.
    split; [now rewrite run_fst|].
    rewrite (Hrows m r Hm) by now apply stored_lookup.
    cbn. apply lookup_insert_eq.
Qed.

(** One job over the two sample messages. *)
Lemma workload_run_sequential_one_job_witness :
  exists table w',
    Workload.run (Workload.Build [sample_job] ∅) sample_messages "sequential"
    = (Ok table, w') /\
    forall m, m ∈ sample_messages ->
      exists r, (Job.run sample_job m).1 = Ok r /\
                table !! Message.id m ≫= (.!! Job.job_id sample_job) = Some r.
Proof.
  apply (workload_run_sequential_one_job sample_job ∅ sample_messages).
  - apply (bool_decide_unpack _). vm_compute. exact I.
  - intros m _. eexists. reflexivity.
Defined.

(** C8.  With an [executor_type] that is neither [parallel] nor
    [sequential] and at least one job, [Workload.run] raises
    [NotImplementedError], whatever the messages, and leaves the workload
    as it was. *)
Theorem workload_run_unsupported_mode {JobResult : Type}
    (self : Workload.t JobResult) (messages : list Message.t)
    (executor_type : string) :
  executor_type <> "parallel" -> executor_type <> "sequential" ->
  Workload.jobs self <> [] ->
  Workload.run self messages executor_type = (Raise NotImplementedError, self).
Proof.
  intros Hp Hs Hne. unfold Workload.run.
  rewrite run_jobs_unsupported by assumption. now destruct self.
Qed.

(** A mode the code does not know. *)
Lemma workload_run_unsupported_mode_witness :
  Workload.run (Workload.Build [sample_job] ∅) sample_messages "threads"
  = (Raise NotImplementedError, Workload.Build [sample_job] ∅).
Proof.
  apply (workload_run_unsupported_mode (Workload.Build [sample_job] ∅)
           sample_messages "threads"); discriminate.
Defined.

(** C9, as it is stated, fails: [__name__] is no job function of the
    library, but it is an attribute of its module, a string, and a
    configuration that names it gets a workload with a job that holds that
    string. *)
Lemma from_config_module_name_accepted :
  registered sample_library "__name__" = false /\
  Workload.from_config sample_library
    (PDict [("jobs", PDict [("module", PDict [("name", PStr "__name__")])])])
  = Ok (Workload.Build
          [Job.Build "module" (PDict [])
             (NotCallable (PStr "phospho.lab.job_library")) ∅] ∅).
Proof. split; reflexivity. Qed.

(** C9, amended.  On a configuration whose [jobs] is a mapping of job
    configurations, each a mapping with a string as [name], none of which
    names an attribute that is [None], and one of which names no attribute
    of the module of the job library, [Workload.from_config] raises the
    [AttributeError] of the lookup in the module. *)
Theorem from_config_unknown_job {JobResult : Type}
    (job_library : gmap string (JobFunction JobResult))
    (config items : pydict) :
  dict_lookup "jobs" config = Some (PDict items) ->
  Forall (fun kv => exists n, job_name_of kv.2 = Some n /\
                              job_library !! n <> Some (NotCallable PNone))
         items ->
  Exists (fun kv => exists n, job_name_of kv.2 = Some n /\
                              job_library !! n = None) items ->
  Workload.from_config job_library (PDict config) = Raise AttributeError.
Proof.
  intros Hjobs Hwf Hex. unfold Workload.from_config.
  cbn [py_subscript]. rewrite Hjobs. cbn [mbind result_bind py_items].
  now apply add_configured_unknown.
Qed.

(** The sample configuration names [sentiment], which the sample library
    lacks. *)
Lemma from_config_unknown_job_witness :
  Workload.from_config sample_library (PDict sample_config)
  = Raise AttributeError.
Proof.
  apply (from_config_unknown_job sample_library sample_config
           [("length", PDict [("name", PStr "content_length")]);
            ("mood", PDict [("name", PStr "sentiment");
                            ("params", PDict [("scale", PInt 5)])])]).
  - reflexivity.
  - repeat constructor.
    + exists "content_length". split; [reflexivity|discriminate].
    + exists "sentiment". split; [reflexivity|discriminate].
  - apply Exists_cons_tl, Exists_cons_hd. exists "sentiment".
    split; reflexivity.
Defined.

(** C10.  [Job.run] raises exactly when the call of the job function
    raises, with the same exception, and then the job is as it was; when
    the call returns, [Job.run] returns its result and the job differs
    only in [job_results], where the id of the message is bound to the
    result and every other id is as before.  With a mapping as [params],
    the call is the job function applied to the message and the params. *)
Theorem job_run_atomic {JobResult : Type}
    (job : Job.t JobResult) (m : Message.t) :
  (forall kwargs, Job.params job = PDict kwargs ->
     Job.call job m = fn_call (Job.job_function job) m kwargs) /\
  (forall e, (Job.run job m).1 = Raise e <-> Job.call job m = Raise e) /\
  (forall e, Job.call job m = Raise e -> (Job.run job m).2 = job) /\
  (forall r, Job.call job m = Ok r ->
     Job.run job m
     = (Ok r, with_results job (<[Message.id m := r]> (Job.job_results job))) /\
     Job.job_results (Job.run job m).2 !! Message.id m = Some r /\
     forall k, k <> Message.id m ->
       Job.job_results (Job.run job m).2 !! k = Job.job_results job !! k).
Proof.
  split; [|split; [|split]].
  - intros kwargs Hp. unfold Job.call. now rewrite Hp.
  - intros e. now rewrite run_fst.
  - intros e He. unfold Job.run. now rewrite He.
  - intros r Hr. unfold Job.run. rewrite Hr. cbn. split; [reflexivity|].
    split; [apply lookup_insert_eq|].
    intros k Hk. now apply lookup_insert_ne.
Qed.

(** The sample job on a message of five letters. *)
Lemma job_run_atomic_witness :
  Job.run sample_job (Message.Build "m1" Message.user "Hello")
  = (Ok 5, with_results sample_job (<["m1" := 5]> ∅)).
Proof.
  exact (proj1 (proj2 (proj2 (proj2
           (job_run_atomic sample_job
              (Message.Build "m1" Message.user "Hello"))))
           5 eq_refl)).
Defined.

(** ** The extractor: further properties *)

Section DictFacts.

Implicit Types (d u : pydict) (k : string) (v : pyval).

Lemma dict_lookup_set_eq k v d : dict_lookup k (dict_set k v d) = Some v.
Proof.
  induction d as [|[k' v'] d IH]; cbn.
  - now rewrite String.eqb_refl.
  - destruct (String.eqb k k') eqn:E; cbn; rewrite ?String.eqb_refl, ?E; auto.
Qed.

Lemma dict_lookup_set_ne k k' v d :
  k <> k' -> dict_lookup k' (dict_set k v d) = dict_lookup k' d.
Proof.
  intros Hne. induction d as [|[k0 v0] d IH]; cbn.
  - destruct (String.eqb_spec k' k); congruence.
  - destruct (String.eqb_spec k k0) as [->|]; cbn.
    + destruct (String.eqb_spec k' k0); congruence.
    + now rewrite IH.
Qed.

Lemma dict_lookup_None k d : dict_lookup k d = None <-> k ∉ d.*1.
Proof.
  induction d as [|[k' v'] d IH]; cbn.
  - split; [intros _; apply not_elem_of_nil|reflexivity].
  - rewrite not_elem_of_cons.
    destruct (String.eqb_spec k k') as [->|Hne]; [split; [discriminate|tauto]|].
    rewrite IH. tauto.
Qed.

Lemma dict_set_fresh k v d : k ∉ d.*1 -> dict_set k v d = (d ++ [(k, v)])%list.
Proof.
  induction d as [|[k' v'] d IH]; cbn; [reflexivity|].
  rewrite not_elem_of_cons. intros [Hne Hk].
  destruct (String.eqb_spec k k'); [congruence|]. now rewrite IH.
Qed.

Lemma dict_update_fresh d u : NoDup ((d ++ u)%list).*1 -> dict_update d u = (d ++ u)%list.
Proof.
  revert d. induction u as [|[k v] u IH]; intros d Hnd.
  - now rewrite app_nil_r.
  - unfold dict_update. cbn. fold (dict_update (dict_set k v d) u).
    rewrite fmap_app, fmap_cons in Hnd. cbn in Hnd.
    assert (k ∉ d.*1) as Hk.
    { apply NoDup_app in Hnd as (_ & Hdis & _). intros Hin.
      apply (Hdis k Hin). left. }
    rewrite dict_set_fresh by assumption.
    rewrite IH; [now rewrite <- app_assoc|].
    rewrite <- app_assoc. cbn. now rewrite fmap_app, fmap_cons.
Qed.

Lemma dict_update_keys d u k :
  k ∈ (dict_update d u).*1 <-> k ∈ d.*1 \/ k ∈ u.*1.
Proof.
  revert d. induction u as [|[k' v'] u IH]; intros d.
  - cbn. rewrite elem_of_nil. tauto.
  - unfold dict_update. cbn. fold (dict_update (dict_set k' v' d) u).
    rewrite IH, elem_of_cons.
    assert (k ∈ (dict_set k' v' d).*1 <-> k = k' \/ k ∈ d.*1) as ->; [|tauto].
    clear. induction d as [|[k0 v0] d IHd]; cbn.
    + rewrite elem_of_cons, elem_of_nil. tauto.
    + destruct (String.eqb_spec k' k0) as [->|Hne]; cbn;
        rewrite !elem_of_cons; [tauto|]. rewrite IHd. tauto.
Qed.

End DictFacts.

Section ExtractorMore.

Variable h : host.

Lemma forallb_filter_same {A : Type} (p : A -> bool) (l : list A) :
  forallb p (List.filter p l) = true.
Proof.
  induction l as [|a l IH]; [reflexivity|]. cbn.
  destruct (p a) eqn:E; cbn; [now rewrite E|exact IH].
Qed.

Lemma structured_jsonable (x : pyval) : is_jsonable (structured x) = true.
Proof.
  unfold structured. destruct (is_jsonable x) eqn:E; [exact E|].
  cbn. apply forallb_filter_same.
Qed.

Lemma py_update_model (md : pydict) (m : pyval) :
  py_update h md (PDict [("model", m)]) = Ok (dict_set "model" m md).
Proof. reflexivity. Qed.

Lemma py_update_dict (md u : pydict) :
  py_update h md (PDict u) = Ok (dict_update md u).
Proof. reflexivity. Qed.

Lemma extract_metadata_unfold (input output : pyval)
    (f : option (pyval -> pyval -> result pyval)) :
  extract_metadata_from_input_output h input output f
  = (usage ← usage_of f input output;
     md ← (if is_none usage then Ok [] else py_update h [] usage);
     if is_none (detect_model_from_input_output input output) then Ok md
     else Ok (dict_set "model"
                (detect_model_from_input_output input output) md)).
Proof.
  unfold extract_metadata_from_input_output, usage_of.
  destruct f as [f|]; cbn.
  - destruct (f input output) as [u|]; [|reflexivity]. cbn.
    destruct (if is_none u then _ else _); [|reflexivity]. cbn.
    now destruct (is_none _).
  - destruct (if is_none _ then _ else _); [|reflexivity]. cbn.
    now destruct (is_none (detect_model_from_input_output input output)).
Qed.

End ExtractorMore.

(** ** The extractor: further theorems *)

Section ExtractorExceptions.

Variable h : host.

Lemma py_get_attribute_error (x : pyval) (k : string) (dflt : pyval) :
  attribute_error_only (py_get x k dflt).
Proof. now destruct x. Qed.

Lemma py_getattr_strict_attribute_error (x : pyval) (k : string) :
  attribute_error_only (py_getattr_strict x k).
Proof.
  destruct x; cbn; try reflexivity; now destruct (dict_lookup k _).
Qed.

Lemma openai_dict_str_attribute_error (d : pydict) (r : result pyval) :
  openai_dict_str h d = Some r -> attribute_error_only r.
Proof.
  unfold openai_dict_str.
  destruct (dict_lookup "choices" d) as [[| | | | |[|c0 l]| | |]|];
    try discriminate.
  pose proof (py_get_attribute_error c0 "message" PNone) as Hm.
  destruct (py_get c0 "message" PNone) as [message|e]; cbn in Hm.
  - destruct (is_none message).
    + intros [= <-].
      pose proof (py_get_attribute_error c0 "delta" (PDict [])) as Hd.
      destruct (py_get c0 "delta" (PDict [])) as [delta|e]; cbn in *; auto.
      pose proof (py_get_attribute_error delta "content" PNone) as Hc.
      destruct (py_get delta "content" PNone) as [c|e]; cbn in *; auto.
      now destruct (is_none c).
    + pose proof (py_get_attribute_error message "content" PNone) as Hc.
      destruct (py_get message "content" PNone) as [c|e]; cbn in Hc.
      * destruct (is_none c); [discriminate|]. now intros [= <-].
      * now intros [= <-].
  - now intros [= <-].
Qed.

Lemma openai_model_str_attribute_error (n : string) (x : pyval)
    (r : result pyval) :
  openai_model_str h n x = Some r -> attribute_error_only r.
Proof.
  unfold openai_model_str. destruct x; try discriminate.
  destruct (_ || _); [|discriminate].
  destruct (py_getattr _ "choices") as [| | | | |[|c0 l]| | |];
    try discriminate.
  destruct (String.eqb n "ChatCompletion").
  - destruct (is_none _); [discriminate|]. now intros [= <-].
  - intros [= <-].
    pose proof (py_getattr_strict_attribute_error c0 "delta") as Hd.
    destruct (py_getattr_strict c0 "delta") as [delta|e]; cbn in *; auto.
    now destruct (is_none _).
Qed.

Lemma openai_model_str_not_model (n : string) (x : pyval) :
  (forall cls fs, x <> PModel cls fs) -> openai_model_str h n x = None.
Proof. intros Hx. destruct x; try reflexivity. now destruct (Hx cls fields). Qed.

(** What [detect_str_from_output] does once the bytes are dealt with. *)
Lemma detect_str_from_output_dict (d : pydict) :
  detect_str_from_output h (PDict d)
  = match openai_dict_str h d with
    | Some r => r
    | None =>
        match dict_lookup "response" d with
        | Some v => Ok v
        | None => Ok (PStr (py_str h (PDict d)))
        end
    end.
Proof. reflexivity. Qed.

Lemma detect_str_from_output_dict_attribute_error (d : pydict) :
  attribute_error_only (detect_str_from_output h (PDict d)).
Proof.
  rewrite detect_str_from_output_dict.
  pose proof (openai_dict_str_attribute_error d) as Hd.
  destruct (openai_dict_str h d) as [r|]; [now apply Hd|].
  now destruct (dict_lookup "response" d).
Qed.

Lemma detect_str_from_output_parsed (b : string) (v : pyval) :
  convert_to_dict h (PBytes b) = Ok v ->
  detect_str_from_output h (PBytes b)
  = match v with
    | PDict d => detect_str_from_output h (PDict d)
    | _ => Ok (PStr (py_str h v))
    end.
Proof.
  intros Hv. unfold detect_str_from_output at 1. rewrite Hv.
  change (class_name (PBytes b)) with "bytes".
  destruct v; try reflexivity.
Qed.

Lemma detect_str_from_output_unparsed (b : string) (e : exn) :
  convert_to_dict h (PBytes b) = Raise e ->
  detect_str_from_output h (PBytes b) = Ok (PStr (py_str h (PBytes b))).
Proof. intros He. unfold detect_str_from_output. now rewrite He. Qed.

End ExtractorExceptions.

(** X1.  [convert_to_dict] returns a dictionary as it is and a model as
    its dump; [None], a boolean, an integer and a plain record always give
    [NotImplementedError]; a string that is no JSON gives [JSONDecodeError],
    bytes that do not decode [UnicodeDecodeError] and bytes that decode to
    no JSON [JSONDecodeError]; a list gives [ValueError] or
    [NotImplementedError] as [dict()] gives [ValueError] or [TypeError].
    Nothing else is raised: the [TypeError] of [dict()] never leaves it. *)
Theorem convert_to_dict_exceptions (h : host) (x : pyval) :
  (forall e,
      convert_to_dict h x = Raise e ->
      match x with
      | PDict _ | PModel _ _ => False
      | PStr _ => e = JSONDecodeError
      | PBytes _ => e = UnicodeDecodeError \/ e = JSONDecodeError
      | PList _ => e = ValueError \/ e = NotImplementedError
      | PNone | PBool _ | PInt _ | PObj _ _ => e = NotImplementedError
      end) /\
  match x with
  | PDict _ => convert_to_dict h x = Ok x
  | PModel _ fs => convert_to_dict h x = Ok (PDict (model_dump fs))
  | PNone | PBool _ | PInt _ | PObj _ _ =>
      convert_to_dict h x = Raise NotImplementedError
  | PStr s =>
      json_loads h s = None -> convert_to_dict h x = Raise JSONDecodeError
  | PBytes b =>
      (decode h b = None -> convert_to_dict h x = Raise UnicodeDecodeError) /\
      (forall s, decode h b = Some s -> json_loads h s = None ->
                 convert_to_dict h x = Raise JSONDecodeError)
  | PList l =>
      (dict_of_list h l = DictValueError ->
       convert_to_dict h x = Raise ValueError) /\
      (dict_of_list h l = DictTypeError ->
       convert_to_dict h x = Raise NotImplementedError)
  end.
Proof.
  split.
  - intros e. destruct x; cbn; try congruence.
    + destruct (json_loads h s); congruence.
    + destruct (decode h b) as [s|]; [|intros [= <-]; now left].
      destruct (json_loads h s); [discriminate|]. intros [= <-]. now right.
    + destruct (dict_of_list h l); [discriminate| |]; intros [= <-]; auto.
  - destruct x; cbn; try reflexivity.
    + now intros ->.
    + split; [now intros ->|]. intros s -> Hs. now rewrite Hs.
    + split; now intros ->.
Qed.

(** An integer has no conversion. *)
Lemma convert_to_dict_exceptions_witness :
  convert_to_dict bare_host (PInt 3) = Raise NotImplementedError.
Proof.
  exact (proj2 (convert_to_dict_exceptions bare_host (PInt 3))).
Defined.

(** X2.  [detect_str_from_output] raises nothing but an [AttributeError],
    and only on bytes, a dictionary or a pydantic model; a failure to parse
    bytes never leaves it. *)
Theorem detect_str_from_output_exceptions (h : host) (output : pyval)
    (e : exn) :
  detect_str_from_output h output = Raise e ->
  e = AttributeError /\ sniffed_shape output = true.
Proof.
  intros Hrun. split; [|destruct output; try discriminate; reflexivity].
  destruct output; try discriminate.
  - destruct (convert_to_dict h (PBytes b)) as [v|e'] eqn:Hv.
    + rewrite (detect_str_from_output_parsed h b v Hv) in Hrun.
      destruct v; try discriminate.
      pose proof (detect_str_from_output_dict_attribute_error h d) as Hd.
      now rewrite Hrun in Hd.
    + now rewrite (detect_str_from_output_unparsed h b e' Hv) in Hrun.
  - pose proof (detect_str_from_output_dict_attribute_error h d) as Hd.
    now rewrite Hrun in Hd.
  - unfold detect_str_from_output in Hrun.
    pose proof (openai_model_str_attribute_error h
                  (class_name (PModel cls fields)) (PModel cls fields)) as Hm.
    destruct (openai_model_str h _ (PModel cls fields)) as [r|];
      [|discriminate].
    specialize (Hm r eq_refl). now rewrite Hrun in Hm.
Qed.

(** A chunk model whose choice has no [delta]. *)
Lemma detect_str_from_output_exceptions_witness :
  AttributeError = AttributeError /\
  sniffed_shape
    (PModel "ChatCompletionChunk" [("choices", PList [PModel "Choice" []])])
  = true.
Proof.
  exact (detect_str_from_output_exceptions bare_host
           (PModel "ChatCompletionChunk"
              [("choices", PList [PModel "Choice" []])])
           AttributeError eq_refl).
Defined.

(** X3.  Bytes are looked at as what they parse to: if the bytes decode
    and parse to a dictionary, [detect_str_from_output] does on them what
    it does on that dictionary; if the conversion raises, whatever the
    exception, it returns [str] of the bytes. *)
Theorem detect_str_from_output_bytes_as_parsed (h : host) (b : string) :
  (forall s d,
      decode h b = Some s -> json_loads h s = Some (PDict d) ->
      detect_str_from_output h (PBytes b)
      = detect_str_from_output h (PDict d)) /\
  (forall e,
      convert_to_dict h (PBytes b) = Raise e ->
      detect_str_from_output h (PBytes b)
      = Ok (PStr (py_str h (PBytes b)))).
Proof.
  split.
  - intros s d Hs Hd.
    apply (detect_str_from_output_parsed h b (PDict d)).
    cbn. now rewrite Hs, Hd.
  - apply detect_str_from_output_unparsed.
Qed.

(** The bytes of the empty JSON object, and bytes that are no JSON. *)
Lemma detect_str_from_output_bytes_as_parsed_witness :
  detect_str_from_output literal_host (PBytes "{}")
  = detect_str_from_output literal_host (PDict []) /\
  detect_str_from_output literal_host (PBytes "data: ")
  = Ok (PStr (py_str literal_host (PBytes "data: "))).
Proof.
  split.
  - exact (proj1 (detect_str_from_output_bytes_as_parsed literal_host "{}")
             "{}" [] eq_refl eq_refl).
  - exact (proj2 (detect_str_from_output_bytes_as_parsed literal_host "data: ")
             JSONDecodeError eq_refl).
Defined.

(** X4.  On a pydantic model of class [ChatCompletion] with a non-empty
    list of choices, [detect_str_from_output] never raises: it returns the
    string form of [choices[0].message.content], and [str] of the whole
    model when that content is [None] or cannot be reached. *)
Theorem detect_str_from_output_pydantic_completion
    (h : host) (fs : pydict) (c0 : pyval) (rest : list pyval) :
  dict_lookup "choices" fs = Some (PList (c0 :: rest)) ->
  detect_str_from_output h (PModel "ChatCompletion" fs)
  = Ok (PStr (py_str h
                (let content := py_getattr (py_getattr c0 "message") "content" in
                 if is_none content then PModel "ChatCompletion" fs
                 else content))).
Proof.
  intros Hc. unfold detect_str_from_output, openai_model_str. cbn.
  rewrite (dict_get_lookup _ _ _ _ Hc).
  now destruct (is_none (py_getattr (py_getattr c0 "message") "content")).
Qed.

(** A completion model, and one whose choice is a dictionary, which has no
    attribute [message]. *)
Lemma detect_str_from_output_pydantic_completion_witness :
  detect_str_from_output bare_host
    (PModel "ChatCompletion"
       [("choices",
         PList [PModel "Choice"
                  [("message",
                    PModel "ChatCompletionMessage"
                      [("content", PStr "Ho ho")])]])])
  = Ok (PStr "Ho ho") /\
  detect_str_from_output bare_host
    (PModel "ChatCompletion"
       [("choices",
         PList [PDict [("message", PDict [("content", PStr "Ho ho")])]])])
  = Ok (PStr "<object>").
Proof.
  split.
  - exact (detect_str_from_output_pydantic_completion bare_host
             [("choices",
               PList [PModel "Choice"
                        [("message",
                          PModel "ChatCompletionMessage"
                            [("content", PStr "Ho ho")])]])]
             (PModel "Choice"
                [("message",
                  PModel "ChatCompletionMessage" [("content", PStr "Ho ho")])])
             [] eq_refl).
  - exact (detect_str_from_output_pydantic_completion bare_host
             [("choices",
               PList [PDict [("message", PDict [("content", PStr "Ho ho")])]])]
             (PDict [("message", PDict [("content", PStr "Ho ho")])])
             [] eq_refl).
Defined.

(** X5.  On a pydantic model of class [ChatCompletionChunk] with a
    non-empty list of choices, [detect_str_from_output] returns the string
    form of [choices[0].delta.content], and the empty string when that
    content is [None] or the delta has none; it raises [AttributeError]
    when the first choice is a model without an attribute [delta]. *)
Theorem detect_str_from_output_pydantic_chunk
    (h : host) (fs cfs : pydict) (ccls : string) (rest : list pyval) :
  dict_lookup "choices" fs = Some (PList (PModel ccls cfs :: rest)) ->
  detect_str_from_output h (PModel "ChatCompletionChunk" fs)
  = match dict_lookup "delta" cfs with
    | Some delta =>
        let content := py_getattr delta "content" in
        Ok (PStr (if is_none content then "" else py_str h content))
    | None => Raise AttributeError
    end.
Proof.
  intros Hc. unfold detect_str_from_output, openai_model_str. cbn.
  rewrite (dict_get_lookup _ _ _ _ Hc). cbn.
  destruct (dict_lookup "delta" cfs) as [delta|]; [|reflexivity]. cbn.
  now destruct (is_none (py_getattr delta "content")).
Qed.

(** A token, the end of the stream with a delta that is [None], and a
    choice without delta. *)
Lemma detect_str_from_output_pydantic_chunk_witness :
  detect_str_from_output bare_host
    (PModel "ChatCompletionChunk"
       [("choices",
         PList [PModel "Choice"
                  [("delta", PModel "ChoiceDelta" [("content", PStr "Ho")])]])])
  = Ok (PStr "Ho") /\
  detect_str_from_output bare_host
    (PModel "ChatCompletionChunk"
       [("choices", PList [PModel "Choice" [("delta", PNone)]])])
  = Ok (PStr "") /\
  detect_str_from_output bare_host
    (PModel "ChatCompletionChunk"
       [("choices", PList [PModel "Choice" [("finish_reason", PStr "stop")]])])
  = Raise AttributeError.
Proof.
  split; [|split].
  - exact (detect_str_from_output_pydantic_chunk bare_host
             [("choices",
               PList [PModel "Choice"
                        [("delta",
                          PModel "ChoiceDelta" [("content", PStr "Ho")])]])]
             [("delta", PModel "ChoiceDelta" [("content", PStr "Ho")])]
             "Choice" [] eq_refl).
  - exact (detect_str_from_output_pydantic_chunk bare_host
             [("choices", PList [PModel "Choice" [("delta", PNone)]])]
             [("delta", PNone)] "Choice" [] eq_refl).
  - exact (detect_str_from_output_pydantic_chunk bare_host
             [("choices",
               PList [PModel "Choice" [("finish_reason", PStr "stop")]])]
             [("finish_reason", PStr "stop")] "Choice" [] eq_refl).
Defined.

(** X6.  A pydantic model is looked into by the name of its class only: a
    model of any class but [ChatCompletion] and [ChatCompletionChunk] is
    returned as [str] of the model, whatever its fields; so is a model of
    these classes whose [choices] is no list or an empty one. *)
Theorem detect_str_from_output_pydantic_other
    (h : host) (cls : string) (fs : pydict) :
  (cls <> "ChatCompletion" /\ cls <> "ChatCompletionChunk") \/
  (forall c0 rest, dict_get "choices" PNone fs <> PList (c0 :: rest)) ->
  detect_str_from_output h (PModel cls fs)
  = Ok (PStr (py_str h (PModel cls fs))).
Proof.
  intros Hcase. unfold detect_str_from_output, openai_model_str. cbn.
  destruct Hcase as [[H1 H2]|Hch].
  - apply String.eqb_neq in H1, H2. now rewrite H1, H2.
  - destruct (_ || _); [|reflexivity].
    destruct (dict_get "choices" PNone fs) as [| | | | |[|c0 l]| | |];
      try reflexivity.
    now destruct (Hch c0 l).
Qed.

(** A completion of a class with another name is not looked into. *)
Lemma detect_str_from_output_pydantic_other_witness :
  detect_str_from_output bare_host
    (PModel "ParsedChatCompletion"
       [("choices",
         PList [PModel "Choice"
                  [("message",
                    PModel "ChatCompletionMessage"
                      [("content", PStr "Ho ho")])]])])
  = Ok (PStr "<object>").
Proof.
  apply (detect_str_from_output_pydantic_other bare_host).
  left. split; discriminate.
Defined.

(** X7.  On a dictionary with a key [response], [detect_str_from_output]
    returns the value under it as it is, not its string form, when
    [choices] is absent, no list or an empty list, and also when the first
    choice has a [message] whose [content] is [None] or absent. *)
Theorem detect_str_from_output_response (h : host) (d : pydict) (v : pyval) :
  dict_lookup "response" d = Some v ->
  (forall c0 rest, dict_lookup "choices" d <> Some (PList (c0 :: rest))) \/
  (exists c0 rest m,
      dict_lookup "choices" d = Some (PList (PDict c0 :: rest)) /\
      dict_lookup "message" c0 = Some (PDict m) /\
      dict_get "content" PNone m = PNone) ->
  detect_str_from_output h (PDict d) = Ok v.
Proof.
  intros Hv Hcase. rewrite detect_str_from_output_dict.
  assert (openai_dict_str h d = None) as ->; [|now rewrite Hv].
  unfold openai_dict_str. destruct Hcase as [Hno|(c0 & rest & m & Hc & Hm & Hn)].
  - destruct (dict_lookup "choices" d) as [[| | | | |[|c0 l]| | |]|];
      try reflexivity.
    now destruct (Hno c0 l).
  - rewrite Hc. cbn. rewrite (dict_get_lookup _ _ _ _ Hm). cbn.
    now rewrite Hn.
Qed.

(** An Ollama-like output whose response is a number, and a completion
    without content that has a response beside it. *)
Lemma detect_str_from_output_response_witness :
  detect_str_from_output bare_host
    (PDict [("model", PStr "llama"); ("response", PInt 42)])
  = Ok (PInt 42) /\
  detect_str_from_output bare_host
    (PDict [("choices",
             PList [PDict [("message", PDict [("content", PNone)])]]);
            ("response", PStr "Hi!")])
  = Ok (PStr "Hi!").
Proof.
  split.
  - apply (detect_str_from_output_response bare_host
             [("model", PStr "llama"); ("response", PInt 42)] (PInt 42)
             eq_refl).
    left. intros c0 rest. discriminate.
  - apply (detect_str_from_output_response bare_host
             [("choices",
               PList [PDict [("message", PDict [("content", PNone)])]]);
              ("response", PStr "Hi!")] (PStr "Hi!") eq_refl).
    right. exists [("message", PDict [("content", PNone)])], [],
      [("content", PNone)]. repeat split.
Defined.

(** X8.  [detect_str_from_input] raises only on a dictionary whose
    [messages] is a non-empty list, and by what the last element is: an
    [AttributeError] on a string in which [content] occurs and on a list
    with the element [content], a [TypeError] on [None], a boolean, an
    integer, bytes and a plain record; on a mapping, a model, and a string
    or list without [content] it returns. *)
Theorem detect_str_from_input_exceptions (h : host) (input : pyval) (e : exn) :
  detect_str_from_input h input = Raise e <->
  exists m, last_message input = Some m /\
    match m with
    | PStr s => is_infix "content" s = true /\ e = AttributeError
    | PList l => existsb (is_str "content") l = true /\ e = AttributeError
    | PDict _ | PModel _ _ => False
    | PNone | PBool _ | PInt _ | PBytes _ | PObj _ _ => e = TypeError
    end.
Proof.
  unfold detect_str_from_input.
  destruct (last_message input) as [m|]; cbn.
  - split.
    + intros Hrun. exists m. split; [reflexivity|].
      destruct m; cbn in Hrun; try congruence.
      * destruct (is_infix "content" s); cbn in Hrun; [|discriminate].
        split; congruence.
      * destruct (existsb (is_str "content") l); cbn in Hrun; [|discriminate].
        split; congruence.
      * destruct (dict_mem "content" d); cbn in Hrun; [|discriminate].
        now destruct (is_none _).
    + intros (m' & [= <-] & Hm).
      destruct m; cbn; try (now subst e); try now destruct Hm.
      * destruct Hm as [-> ->]. reflexivity.
      * destruct Hm as [-> ->]. reflexivity.
  - split; [discriminate|]. now intros (m & Hm & _).
Qed.

(** A list of messages that ends with a text. *)
Lemma detect_str_from_input_exceptions_witness :
  detect_str_from_input bare_host
    (PDict [("messages", PList [PStr "the content of the page"])])
  = Raise AttributeError.
Proof.
  apply (detect_str_from_input_exceptions bare_host).
  exists (PStr "the content of the page"). repeat split.
Defined.

(** X9.  [detect_model_from_input_output] reads the model off a dictionary
    output that has the key [model], whatever is under it, [None]
    included; any other output, a pydantic model too, is not looked into,
    and the model is the one of a dictionary input, if any. *)
Theorem detect_model_from_input_output_precedence (input output : pyval) :
  (forall o m,
      output = PDict o -> dict_lookup "model" o = Some m ->
      detect_model_from_input_output input output = m) /\
  ((forall o, output = PDict o -> dict_lookup "model" o = None) ->
   detect_model_from_input_output input output
   = match input with
     | PDict i => dict_get "model" PNone i
     | _ => PNone
     end).
Proof.
  split.
  - intros o m -> Hm. cbn. now rewrite Hm.
  - intros Hno. destruct output; try reflexivity.
    cbn. rewrite (Hno d eq_refl). now destruct input.
Qed.

(** The model of a pydantic output is not read, and a model that is [None]
    in the output hides the one of the input. *)
Lemma detect_model_from_input_output_precedence_witness :
  detect_model_from_input_output (PDict (chat_input (PStr "Hello?")))
    (PModel "ChatCompletion" [("model", PStr "gpt-4")])
  = PStr "gpt-x" /\
  detect_model_from_input_output (PDict (chat_input (PStr "Hello?")))
    (PDict [("model", PNone)])
  = PNone.
Proof.
  split.
  - apply (proj2 (detect_model_from_input_output_precedence
                    (PDict (chat_input (PStr "Hello?")))
                    (PModel "ChatCompletion" [("model", PStr "gpt-4")]))).
    intros o Ho. discriminate Ho.
  - exact (proj1 (detect_model_from_input_output_precedence
                    (PDict (chat_input (PStr "Hello?")))
                    (PDict [("model", PNone)]))
             [("model", PNone)] PNone eq_refl eq_refl).
Defined.

(** X10.  When the usage is a dictionary, of distinct keys,
    [extract_metadata_from_input_output] returns that dictionary, with the
    detected model under the key [model] if there is one: in the place of
    a [model] the usage has, and else at the end. *)
Theorem extract_metadata_usage_then_model
    (h : host) (input output : pyval)
    (f : option (pyval -> pyval -> result pyval)) (u : pydict) :
  usage_of f input output = Ok (PDict u) ->
  NoDup u.*1 ->
  extract_metadata_from_input_output h input output f
  = Ok (let model := detect_model_from_input_output input output in
        if is_none model then u else dict_set "model" model u).
Proof.
  intros Hu Hnd. rewrite extract_metadata_unfold, Hu.
  cbn [mbind result_bind is_none]. rewrite py_update_dict.
  rewrite (dict_update_fresh [] u Hnd). cbn.
  now destruct (is_none _).
Qed.

(** The output of the spec: a usage of 42 tokens and the model gpt-x. *)
Lemma extract_metadata_usage_then_model_witness :
  extract_metadata_from_input_output bare_host PNone
    (PDict [("usage", PDict [("total_tokens", PInt 42)]);
            ("model", PStr "gpt-x")]) None
  = Ok [("total_tokens", PInt 42); ("model", PStr "gpt-x")].
Proof.
  apply (extract_metadata_usage_then_model bare_host PNone
           (PDict [("usage", PDict [("total_tokens", PInt 42)]);
                   ("model", PStr "gpt-x")]) None
           [("total_tokens", PInt 42)] eq_refl).
  apply (bool_decide_unpack _). vm_compute. exact I.
Defined.

(** X11.  Whenever [extract_metadata_from_input_output] returns and a model
    is detected, the metadata have that model under [model], also when the
    usage brings a [model] of its own. *)
Theorem extract_metadata_model_key
    (h : host) (input output : pyval)
    (f : option (pyval -> pyval -> result pyval)) (md : pydict) :
  extract_metadata_from_input_output h input output f = Ok md ->
  is_none (detect_model_from_input_output input output) = false ->
  dict_lookup "model" md = Some (detect_model_from_input_output input output).
Proof.
  rewrite extract_metadata_unfold. intros Hrun Hm. rewrite Hm in Hrun.
  apply bind_Ok in Hrun as (usage & _ & Hrun).
  apply bind_Ok in Hrun as (md0 & _ & Hrun). injection Hrun as <-.
  apply dict_lookup_set_eq.
Qed.

(** A usage function that reports a model of its own. *)
Lemma extract_metadata_model_key_witness :
  dict_lookup "model" [("model", PStr "gpt-x"); ("total_tokens", PInt 1)]
  = Some (detect_model_from_input_output
            (PDict (chat_input (PStr "Hello?"))) (PStr "Hi")).
Proof.
  exact (extract_metadata_model_key bare_host
           (PDict (chat_input (PStr "Hello?"))) (PStr "Hi")
           (Some (fun _ _ =>
                    Ok (PDict [("model", PStr "local"); ("total_tokens", PInt 1)])))
           [("model", PStr "gpt-x"); ("total_tokens", PInt 1)]
           eq_refl eq_refl).
Defined.

(** X12.  With the default usage function,
    [extract_metadata_from_input_output] raises exactly when the usage of
    the output is not [None] and [update] cannot read it as [dict()] would:
    a [TypeError] when it is not iterable, a [ValueError] when its items
    are no pairs.  So a boolean, an integer, a plain record and bytes that
    are not empty give [TypeError], a string that is not empty
    [ValueError], a list what its items decide; and no usage, [None], a
    dictionary, a model, the empty string and the empty bytes give the
    metadata. *)
Theorem extract_metadata_exceptions (h : host) (input output : pyval) :
  let usage := detect_usage_from_input_output input output in
  (forall e,
      extract_metadata_from_input_output h input output None = Raise e <->
      is_none usage = false /\
      (py_dict h usage = DictTypeError /\ e = TypeError \/
       py_dict h usage = DictValueError /\ e = ValueError)) /\
  match usage with
  | PNone | PDict _ | PModel _ _ =>
      exists md, extract_metadata_from_input_output h input output None = Ok md
  | PBool _ | PInt _ | PObj _ _ =>
      extract_metadata_from_input_output h input output None = Raise TypeError
  | PStr s =>
      if String.eqb s "" then
        exists md,
          extract_metadata_from_input_output h input output None = Ok md
      else
        extract_metadata_from_input_output h input output None
        = Raise ValueError
  | PBytes b =>
      if String.eqb b "" then
        exists md,
          extract_metadata_from_input_output h input output None = Ok md
      else
        extract_metadata_from_input_output h input output None
        = Raise TypeError
  | PList l =>
      match dict_of_list h l with
      | DictOk _ =>
          exists md,
            extract_metadata_from_input_output h input output None = Ok md
      | DictValueError =>
          extract_metadata_from_input_output h input output None
          = Raise ValueError
      | DictTypeError =>
          extract_metadata_from_input_output h input output None
          = Raise TypeError
      end
  end.
Proof.
  cbn zeta. rewrite extract_metadata_unfold. cbn [usage_of mbind result_bind].
  unfold py_update.
  set (usage := detect_usage_from_input_output input output).
  set (model := detect_model_from_input_output input output).
  split.
  - intros e. destruct (is_none usage); cbn.
    + destruct (is_none model); split; try discriminate; now intros [? _].
    + destruct (py_dict h usage); cbn.
      * destruct (is_none model); split; try discriminate;
          intros [_ [[? _]|[? _]]]; discriminate.
      * split.
        -- intros [= <-]. split; [reflexivity|]. now right.
        -- intros [_ [[? _]|[_ ->]]]; [discriminate|reflexivity].
      * split.
        -- intros [= <-]. split; [reflexivity|]. now left.
        -- intros [_ [[_ ->]|[? _]]]; [reflexivity|discriminate].
  - destruct usage; cbn; try reflexivity;
      try (destruct (is_none model); eauto; fail).
    + destruct (String.eqb s ""); cbn; [|reflexivity].
      destruct (is_none model); eauto.
    + destruct (String.eqb b ""); cbn; [|reflexivity].
      destruct (is_none model); eauto.
    + destruct (dict_of_list h l); cbn; try reflexivity.
      destruct (is_none model); eauto.
Qed.

(** A usage that is a number of tokens and not a mapping, and a usage
    that is the empty string. *)
Lemma extract_metadata_exceptions_witness :
  extract_metadata_from_input_output bare_host PNone
    (PDict [("usage", PInt 42)]) None
  = Raise TypeError /\
  exists md,
    extract_metadata_from_input_output bare_host PNone
      (PDict [("usage", PStr "")]) None = Ok md.
Proof.
  split.
  - exact (proj2 (extract_metadata_exceptions bare_host PNone
                    (PDict [("usage", PInt 42)]))).
  - exact (proj2 (extract_metadata_exceptions bare_host PNone
                    (PDict [("usage", PStr "")]))).
Defined.

Section ExtractData.

Variable h : host.

(** The second component of what [extract_data_from_output] returns. *)
Lemma extract_data_from_output_snd (output raw : pyval)
    (f : option (pyval -> result pyval)) (c r : pyval) :
  extract_data_from_output h output raw f = Ok (c, r) ->
  if is_none raw then
    match output with
    | PNone => r = PNone
    | PStr _ => r = output
    | _ => loggable h output = Ok r
    end
  else loggable h raw = Ok r.
Proof.
  unfold extract_data_from_output. intros Hrun.
  apply bind_Ok in Hrun as ([c0 r0] & Hfst & Hrun).
  apply bind_Ok in Hrun as (r1 & Hraw & Hrun). injection Hrun as -> ->.
  destruct (is_none raw); [|exact Hraw]. injection Hraw as ->.
  destruct output;
    try (apply bind_Ok in Hfst as (c1 & _ & Hfst);
         apply bind_Ok in Hfst as (r2 & Hl & Hfst); injection Hfst as _ ->;
         exact Hl);
    now injection Hfst as _ <-.
Qed.

Lemma extract_data_from_input_snd (input raw : pyval)
    (f : option (pyval -> result pyval)) (c r : pyval) :
  extract_data_from_input h input raw f = Ok (c, r) ->
  if is_none raw then
    match input with
    | PStr _ => r = input
    | _ => loggable h input = Ok r
    end
  else loggable h raw = Ok r.
Proof.
  unfold extract_data_from_input. intros Hrun.
  apply bind_Ok in Hrun as ([c0 r0] & Hfst & Hrun).
  apply bind_Ok in Hrun as (r1 & Hraw & Hrun). injection Hrun as -> ->.
  destruct (is_none raw); [|exact Hraw]. injection Hraw as ->.
  destruct input;
    try (apply bind_Ok in Hfst as (c1 & _ & Hfst);
         apply bind_Ok in Hfst as (r2 & Hl & Hfst); injection Hfst as _ ->;
         exact Hl);
    now injection Hfst as _ <-.
Qed.

Lemma loggable_documented_jsonable (x r : pyval) :
  documented_shape x = true -> loggable h x = Ok r -> is_jsonable r = true.
Proof.
  intros Hx. rewrite (loggable_documented h x Hx). intros [= <-].
  apply structured_jsonable.
Qed.

End ExtractData.

(** X13.  On arguments of the documented shapes ([None], a string, a
    dictionary, a pydantic model), the structured representation that
    [extract_data_from_output] and [extract_data_from_input] return is
    serializable, whatever string function they are given. *)
Theorem extract_data_structured_jsonable
    (h : host) (x raw : pyval) (f : option (pyval -> result pyval))
    (c r : pyval) :
  documented_shape x = true ->
  documented_shape raw = true ->
  extract_data_from_output h x raw f = Ok (c, r) \/
  extract_data_from_input h x raw f = Ok (c, r) ->
  is_jsonable r = true.
Proof.
  intros Hx Hraw [Hrun|Hrun].
  - apply extract_data_from_output_snd in Hrun.
    destruct (is_none raw);
      [|now apply (loggable_documented_jsonable h raw)].
    destruct x; try discriminate; subst; try reflexivity;
      now apply (loggable_documented_jsonable h _ r Hx).
  - apply extract_data_from_input_snd in Hrun.
    destruct (is_none raw);
      [|now apply (loggable_documented_jsonable h raw)].
    destruct x; try discriminate; subst; try reflexivity;
      now apply (loggable_documented_jsonable h _ r Hx).
Qed.

(** A model with a field of bytes and a nested model. *)
Lemma extract_data_structured_jsonable_witness :
  is_jsonable
    (PDict [("text", PStr "hi");
            ("usage", PDict [("total_tokens", PInt 42)])])
  = true.
Proof.
  apply (extract_data_structured_jsonable bare_host
           (PModel "Answer"
              [("text", PStr "hi"); ("raw", PBytes "hi");
               ("usage", PModel "Usage" [("total_tokens", PInt 42)])])
           PNone (Some (fun _ => Ok (PStr "hi"))) (PStr "hi")
           (PDict [("text", PStr "hi");
                   ("usage", PDict [("total_tokens", PInt 42)])])
           eq_refl eq_refl).
  left. reflexivity.
Defined.

(** X14.  A raw output that is not [None] takes the place of the
    structured representation and leaves the string alone:
    [extract_data_from_output] returns with it exactly when it returns
    without it and the raw output has a structured representation, and
    then the string is the same and the structure is the raw output's. *)
Theorem extract_data_from_output_raw_override
    (h : host) (output raw : pyval) (f : option (pyval -> result pyval))
    (c r : pyval) :
  is_none raw = false ->
  extract_data_from_output h output raw f = Ok (c, r) <->
  (exists r0, extract_data_from_output h output PNone f = Ok (c, r0)) /\
  loggable h raw = Ok r.
Proof.
  intros Hraw. unfold extract_data_from_output. rewrite Hraw. cbn [is_none].
  destruct (match output with
            | PNone => Ok (PNone, PNone)
            | PStr _ => Ok (output, output)
            | _ => _
            end) as [[c0 r0]|e]; cbn.
  - destruct (loggable h raw) as [r1|e1]; cbn.
    + split.
      * intros [= -> ->]. eauto.
      * intros [[r2 [= ->]] [= ->]]. reflexivity.
    + split; [discriminate|]. now intros [_ ?].
  - split; [discriminate|]. now intros [[r2 ?] _].
Qed.

(** A text logged with the dictionary it was read from. *)
Lemma extract_data_from_output_raw_override_witness :
  extract_data_from_output bare_host (PStr "Hi!")
    (PDict [("response", PStr "Hi!"); ("done", PBool true)]) None
  = Ok (PStr "Hi!", PDict [("response", PStr "Hi!"); ("done", PBool true)]).
Proof.
  apply (extract_data_from_output_raw_override bare_host (PStr "Hi!")
           (PDict [("response", PStr "Hi!"); ("done", PBool true)]) None
           (PStr "Hi!")
           (PDict [("response", PStr "Hi!"); ("done", PBool true)]) eq_refl).
  split; [exists (PStr "Hi!")|]; reflexivity.
Defined.

(** X15.  Given the same string function, [extract_data_from_output] and
    [extract_data_from_input] do the same on every value but [None], on
    which the first returns [None] without calling the function and the
    second calls it. *)
Theorem extract_data_output_as_input
    (h : host) (x raw : pyval) (f : pyval -> result pyval) :
  (is_none x = false ->
   extract_data_from_output h x raw (Some f)
   = extract_data_from_input h x raw (Some f)) /\
  (extract_data_from_output h PNone PNone (Some f) = Ok (PNone, PNone)) /\
  (extract_data_from_input h PNone PNone (Some f)
   = (s ← f PNone; Ok (s, PNone))).
Proof.
  split; [|split].
  - intros Hx. now destruct x.
  - reflexivity.
  - unfold extract_data_from_input. cbn. now destruct (f PNone).
Qed.

(** A dictionary logged by both functions. *)
Lemma extract_data_output_as_input_witness :
  extract_data_from_output bare_host (PDict (chunk_record (PStr "tok"))) PNone
    (Some (detect_str_from_output bare_host))
  = extract_data_from_input bare_host (PDict (chunk_record (PStr "tok"))) PNone
      (Some (detect_str_from_output bare_host)).
Proof.
  exact (proj1 (extract_data_output_as_input bare_host
                  (PDict (chunk_record (PStr "tok"))) PNone
                  (detect_str_from_output bare_host)) eq_refl).
Defined.

(** ** The lab: further properties *)

Section LabMore.

Context {JobResult : Type}.

Implicit Types (job : Job.t JobResult) (jobs : list (Job.t JobResult)).
Implicit Types (m : Message.t) (messages : list Message.t).
Implicit Types (rs : gmap string JobResult).

Lemma run_snd job m :
  (Job.run job m).2
  = with_results job (match Job.call job m with
                      | Ok r => <[Message.id m := r]> (Job.job_results job)
                      | Raise _ => Job.job_results job
                      end).
Proof.
  unfold Job.run. destruct (Job.call job m); [reflexivity|].
  cbn. now rewrite with_results_id.
Qed.

Lemma with_results_twice job rs rs' :
  with_results (with_results job rs) rs' = with_results job rs'.
Proof. reflexivity. Qed.

Lemma run_parallel_stored job messages rs :
  Workload.run_parallel (with_results job rs) messages
  = with_results job (stored job messages rs).
Proof.
  revert rs. induction messages as [|m ms IH]; intros rs; [reflexivity|].
  cbn [Workload.run_parallel].
  rewrite run_snd, call_with_results, with_results_twice, stored_cons.
  apply IH.
Qed.

Lemma run_parallel_ran job messages :
  Workload.run_parallel job messages = ran messages job.
Proof.
  rewrite <- (with_results_id job) at 1. apply run_parallel_stored.
Qed.

Lemma run_jobs_parallel jobs messages :
  Workload.run_jobs jobs messages "parallel" = (Ok (), ran messages <$> jobs).
Proof.
  induction jobs as [|job jobs IH]; [reflexivity|].
  cbn [Workload.run_jobs String.eqb Ascii.eqb Bool.eqb]. cbn match.
  now rewrite IH, run_parallel_ran.
Qed.

Lemma run_sequential_ran job messages :
  (forall m, m ∈ messages -> exists r, Job.call job m = Ok r) ->
  Workload.run_sequential job messages = (Ok (), ran messages job).
Proof.
  intros Hall. rewrite <- (with_results_id job) at 1.
  now apply run_sequential_stored.
Qed.

Lemma run_jobs_sequential jobs messages :
  (forall job m, job ∈ jobs -> m ∈ messages ->
     exists r, Job.call job m = Ok r) ->
  Workload.run_jobs jobs messages "sequential"
  = (Ok (), ran messages <$> jobs).
Proof.
  induction jobs as [|job jobs IH]; intros Hall; [reflexivity|].
  cbn [Workload.run_jobs String.eqb Ascii.eqb Bool.eqb]. cbn match.
  rewrite run_sequential_ran by (intros m Hm; apply Hall; [left|exact Hm]).
  rewrite IH; [reflexivity|].
  intros j m Hj Hm. apply Hall; [now right|exact Hm].
Qed.

Lemma stored_app job (pre post : list Message.t) rs :
  stored job (pre ++ post) rs = stored job post (stored job pre rs).
Proof. unfold stored. apply foldl_app. Qed.

Lemma run_sequential_fails job (pre post : list Message.t) m (e : exn) rs :
  (forall m', m' ∈ pre -> exists r, Job.call job m' = Ok r) ->
  Job.call job m = Raise e ->
  Workload.run_sequential (with_results job rs) (pre ++ m :: post)
  = (Raise e, with_results job (stored job pre rs)).
Proof.
  revert rs. induction pre as [|m0 pre IH]; intros rs Hpre He.
  - cbn [app Workload.run_sequential]. unfold Job.run.
    now rewrite call_with_results, He.
  - destruct (Hpre m0) as [r Hr]; [left|].
    cbn [app Workload.run_sequential].
    pose proof (run_snd (with_results job rs) m0) as Hsnd.
    pose proof (run_fst (with_results job rs) m0) as Hfst.
    rewrite call_with_results, Hr in Hsnd, Hfst.
    rewrite with_results_twice in Hsnd.
    destruct (Job.run (with_results job rs) m0) as [r0 job0].
    cbn in Hsnd, Hfst. subst r0 job0.
    rewrite stored_cons, Hr.
    apply IH; [|exact He]. intros m' Hm'. apply Hpre. now right.
Qed.

Lemma row_of_cons job jobs (mid : string) rs :
  row_of (job :: jobs) mid rs
  = row_of jobs mid (match Job.job_results job !! mid with
                     | Some r => <[Job.job_id job := r]> rs
                     | None => rs
                     end).
Proof. reflexivity. Qed.

Lemma collect_row_ok jobs (mid : string) rs :
  Forall (fun job => is_Some (Job.job_results job !! mid)) jobs ->
  Workload.collect_row jobs mid rs = Ok (row_of jobs mid rs).
Proof.
  revert rs. induction jobs as [|job jobs IH]; intros rs Hall; [reflexivity|].
  apply Forall_cons in Hall as [[r Hr] Hall].
  cbn [Workload.collect_row]. rewrite row_of_cons, Hr. now apply IH.
Qed.

Lemma collect_row_raise jobs (mid : string) rs :
  ~ Forall (fun job => is_Some (Job.job_results job !! mid)) jobs ->
  Workload.collect_row jobs mid rs = Raise KeyError.
Proof.
  revert rs. induction jobs as [|job jobs IH]; intros rs Hnot.
  - destruct Hnot. constructor.
  - cbn [Workload.collect_row].
    destruct (Job.job_results job !! mid) as [r|] eqn:Hr; [|reflexivity].
    apply IH. intros Hall. apply Hnot. constructor; [now exists r|exact Hall].
Qed.

Lemma table_of_cons m messages jobs
    (acc : gmap string (gmap string JobResult)) :
  table_of (m :: messages) jobs acc
  = table_of messages jobs
      (<[Message.id m := row_of jobs (Message.id m) ∅]> acc).
Proof. reflexivity. Qed.

Lemma collect_ok messages jobs (acc : gmap string (gmap string JobResult)) :
  complete messages jobs ->
  Workload.collect messages jobs acc = Ok (table_of messages jobs acc).
Proof.
  revert acc. induction messages as [|m ms IH]; intros acc Hall;
    [reflexivity|].
  apply Forall_cons in Hall as [Hm Hall].
  rewrite table_of_cons. cbn [Workload.collect].
  rewrite (collect_row_ok _ _ _ Hm). cbn [mbind result_bind]. now apply IH.
Qed.

Lemma collect_raise messages jobs
    (acc : gmap string (gmap string JobResult)) :
  ~ complete messages jobs ->
  Workload.collect messages jobs acc = Raise KeyError.
Proof.
  revert acc. induction messages as [|m ms IH]; intros acc Hnot.
  - destruct Hnot. constructor.
  - cbn [Workload.collect].
    destruct (decide (Forall (fun job =>
                is_Some (Job.job_results job !! Message.id m)) jobs))
      as [Hm|Hm].
    + rewrite (collect_row_ok _ _ _ Hm). cbn [mbind result_bind]. apply IH.
      intros Hall. apply Hnot. now constructor.
    + now rewrite (collect_row_raise _ _ _ Hm).
Qed.

Lemma table_of_lookup messages jobs
    (acc : gmap string (gmap string JobResult)) (k : string) :
  table_of messages jobs acc !! k
  = if decide (k ∈ Message.id <$> messages) then Some (row_of jobs k ∅)
    else acc !! k.
Proof.
  revert acc. induction messages as [|m ms IH]; intros acc.
  - cbn. now rewrite decide_False by apply not_elem_of_nil.
  - rewrite table_of_cons, IH, fmap_cons.
    destruct (decide (k ∈ Message.id <$> ms)) as [Hin|Hout].
    + now rewrite decide_True by now right.
    + destruct (decide (k = Message.id m)) as [->|Hne].
      * rewrite decide_True by left. apply lookup_insert_eq.
      * rewrite decide_False by (rewrite not_elem_of_cons; tauto).
        now rewrite lookup_insert_ne.
Qed.

Lemma row_of_other jobs (mid jid : string) rs :
  jid ∉ Job.job_id <$> jobs -> row_of jobs mid rs !! jid = rs !! jid.
Proof.
  revert rs. induction jobs as [|job jobs IH]; intros rs Hout; [reflexivity|].
  rewrite fmap_cons, not_elem_of_cons in Hout. destruct Hout as [Hne Hout].
  rewrite row_of_cons, IH by assumption.
  destruct (Job.job_results job !! mid); [|reflexivity].
  now rewrite lookup_insert_ne.
Qed.

Lemma row_of_lookup jobs (mid : string) rs job (r : JobResult) :
  NoDup (Job.job_id <$> jobs) -> job ∈ jobs ->
  Job.job_results job !! mid = Some r ->
  row_of jobs mid rs !! Job.job_id job = Some r.
Proof.
  revert rs. induction jobs as [|job0 jobs IH]; intros rs Hnd Hin Hr.
  - now apply elem_of_nil in Hin.
  - rewrite fmap_cons, NoDup_cons in Hnd. destruct Hnd as [Hfresh Hnd].
    rewrite row_of_cons. apply elem_of_cons in Hin as [->|Hin].
    + rewrite Hr, row_of_other by assumption. apply lookup_insert_eq.
    + now apply IH.
Qed.

Lemma stored_perm job messages messages' rs :
  messages ≡ₚ messages' ->
  NoDup (Message.id <$> messages) ->
  stored job messages rs = stored job messages' rs.
Proof.
  intros Hp. revert rs.
  induction Hp as [|m l l' Hp IH|m1 m2 l|l l' l'' Hp1 IH1 Hp2 IH2];
    intros rs Hnd.
  - reflexivity.
  - rewrite fmap_cons, NoDup_cons in Hnd. rewrite !stored_cons.
    now apply IH.
  - rewrite !fmap_cons, !NoDup_cons, not_elem_of_cons in Hnd.
    destruct Hnd as [[Hne _] _]. rewrite !stored_cons.
    destruct (Job.call job m1), (Job.call job m2); try reflexivity.
    now rewrite insert_insert_ne.
  - rewrite IH1 by assumption. apply IH2. now rewrite <- Hp1.
Qed.

Lemma run_parallel_result (self : Workload.t JobResult) messages :
  let jobs' := ran messages <$> Workload.jobs self in
  (complete messages jobs' ->
   Workload.run self messages "parallel"
   = (Ok (table_of messages jobs' ∅),
      Workload.Build jobs' (table_of messages jobs' ∅))) /\
  (~ complete messages jobs' ->
   Workload.run self messages "parallel"
   = (Raise KeyError, Workload.Build jobs' (Workload.results self))).
Proof.
  intros jobs'. unfold Workload.run. rewrite run_jobs_parallel.
  fold jobs'. split; intros Hc.
  - now rewrite collect_ok.
  - now rewrite collect_raise.
Qed.

End LabMore.

Section ConfigFacts.

Context {JobResult : Type}.
Variable job_library : gmap string (JobFunction JobResult).

Lemma add_configured_job (entry : string * pyval) (items : pydict)
    (job : Job.t JobResult) (w : Workload.t JobResult) :
  job_of_config job_library entry = Some job ->
  Workload.add_configured job_library (entry :: items) w
  = Workload.add_configured job_library items (Workload.add_job w job).
Proof.
  destruct entry as [job_id job_config]. unfold job_of_config. cbn [snd fst].
  destruct job_config as [| | | | | |c| |]; try discriminate.
  destruct (dict_lookup "name" c) as [[| | |n| | | | |]|] eqn:Hn;
    try discriminate.
  destruct (job_library !! n) as [f|] eqn:Hf; [|discriminate].
  destruct (fn_is_none f) eqn:Hnone; [discriminate|].
  intros [= <-]. cbn [Workload.add_configured py_subscript py_get].
  rewrite Hn. cbn [mbind result_bind].
  now rewrite (init_registered job_library n job_id _ f Hf Hnone).
Qed.

Lemma add_configured_jobs (items : pydict) (js : list (Job.t JobResult))
    (w : Workload.t JobResult) :
  mapM (job_of_config job_library) items = Some js ->
  Workload.add_configured job_library items w
  = Ok (Workload.Build (Workload.jobs w ++ js)%list (Workload.results w)).
Proof.
  rewrite mapM_Some. intros Hall. revert w.
  induction Hall as [|entry job items js Hjob Hall IH]; intros w.
  - cbn. rewrite app_nil_r. now destruct w.
  - rewrite (add_configured_job entry items job w Hjob), IH.
    cbn. now rewrite <- app_assoc.
Qed.

Lemma add_configured_stops (job_id : string) (job_config : pyval)
    (items : pydict) (e : exn) (w : Workload.t JobResult) :
  config_error job_library job_config = Some e ->
  Workload.add_configured job_library ((job_id, job_config) :: items) w
  = Raise e.
Proof.
  unfold config_error. cbn [Workload.add_configured].
  destruct job_config as [| | | | | |c| |];
    try (intros [= <-]; reflexivity).
  cbn [py_subscript py_get].
  destruct (dict_lookup "name" c) as [v|]; [|intros [= <-]; reflexivity].
  cbn [mbind result_bind].
  destruct v as [| | |n| | | | |]; try (intros [= <-]; reflexivity).
  destruct (job_library !! n) as [f|] eqn:Hf.
  - destruct (fn_is_none f) eqn:Hnone; [|discriminate].
    intros [= <-]. now rewrite (init_none_attribute job_library n job_id _ f).
  - intros [= <-]. now rewrite init_unregistered.
Qed.

(** An entry stands for a job exactly when it makes [from_config] raise
    nothing. *)
Lemma config_error_job_of_config (entry : string * pyval) :
  config_error job_library entry.2 = None
  <-> is_Some (job_of_config job_library entry).
Proof.
  unfold config_error, job_of_config.
  destruct entry.2 as [| | | | | |c| |];
    try (split; [discriminate|intros [? ?]; discriminate]).
  destruct (dict_lookup "name" c) as [[| | |n| | | | |]|];
    try (split; [discriminate|intros [? ?]; discriminate]).
  destruct (job_library !! n) as [f|];
    [|split; [discriminate|intros [? ?]; discriminate]].
  destruct (fn_is_none f);
    [split; [discriminate|intros [? ?]; discriminate]|].
  split; [eauto|reflexivity].
Qed.

End ConfigFacts.

(** ** The lab: further theorems *)

(** X16.  [Job.__init__] raises [ValueError] without a function and a
    name.  A name is looked up among the attributes of the module of the
    job library, also when a function is given: a name the module lacks is
    an [AttributeError], an attribute that is [None] an [AssertionError],
    and any other attribute, a job function or not, becomes the function
    of the job.  The id of the job is the one given, else the name, else
    the [__name__] of the function, whose absence is an [AttributeError];
    the params are an empty dictionary if [None] is given, and no result
    is stored. *)
Theorem job_init_resolution {JobResult : Type}
    (job_library : gmap string (JobFunction JobResult))
    (job_function : JobFunction JobResult)
    (job_id : option string) (params : pyval) :
  let params' := if is_none params then PDict [] else params in
  Job.init job_library (NotCallable PNone) PNone job_id params
  = Raise ValueError /\
  (fn_is_none job_function = false ->
   Job.init job_library job_function PNone job_id params
   = match job_id, fn_name job_function with
     | Some i, _ => Ok (Job.Build i params' job_function ∅)
     | None, Some n => Ok (Job.Build n params' job_function ∅)
     | None, None => Raise AttributeError
     end) /\
  (forall n,
      Job.init job_library job_function (PStr n) job_id params
      = match job_library !! n with
        | None => Raise AttributeError
        | Some f =>
            if fn_is_none f then Raise AssertionError
            else Ok (Job.Build (default n job_id) params' f ∅)
        end).
Proof.
  cbn zeta. split; [reflexivity|]. split.
  - intros Hf. unfold Job.init. rewrite Hf. cbn. rewrite Hf.
    destruct job_id; [reflexivity|]. now destruct (fn_name job_function).
  - intros n. unfold Job.init. rewrite andb_false_r. cbn.
    destruct (job_library !! n) as [f|]; [|reflexivity]. cbn.
    destruct (fn_is_none f); [reflexivity|]. now destruct job_id.
Qed.

(** A name of the library wins over the function given with it, and the
    name of the module is found as well. *)
Lemma job_init_resolution_witness :
  Job.init sample_library first_letter PNone None PNone
  = Ok (Job.Build "first_letter" (PDict []) first_letter ∅) /\
  Job.init sample_library first_letter (PStr "content_length") None PNone
  = Ok (Job.Build "content_length" (PDict []) content_length ∅) /\
  Job.init sample_library first_letter (PStr "__name__") None PNone
  = Ok (Job.Build "__name__" (PDict [])
          (NotCallable (PStr "phospho.lab.job_library")) ∅) /\
  Job.init sample_library first_letter (PStr "__doc__") None PNone
  = Raise AssertionError.
Proof.
  split; [|split; [|split]].
  - exact (proj1 (proj2 (job_init_resolution sample_library first_letter
                           None PNone)) eq_refl).
  - exact (proj2 (proj2 (job_init_resolution sample_library first_letter
                           None PNone)) "content_length").
  - exact (proj2 (proj2 (job_init_resolution sample_library first_letter
                           None PNone)) "__name__").
  - exact (proj2 (proj2 (job_init_resolution sample_library first_letter
                           None PNone)) "__doc__").
Defined.

(** X17.  On a configuration whose [jobs] maps ids to mappings that name
    functions of the library, [Workload.from_config] returns a workload
    with one job per entry, in the order of the entries: its id is the key
    of the entry, its function the one the library has under the name, its
    params the configured ones (an empty dictionary if there are none or
    they are [None]), and it holds no result. *)
Theorem from_config_jobs {JobResult : Type}
    (job_library : gmap string (JobFunction JobResult))
    (config items : pydict) (js : list (Job.t JobResult)) :
  dict_lookup "jobs" config = Some (PDict items) ->
  mapM (job_of_config job_library) items = Some js ->
  Workload.from_config job_library (PDict config) = Ok (Workload.Build js ∅).
Proof.
  intros Hjobs Hjs. unfold Workload.from_config.
  cbn [py_subscript]. rewrite Hjobs. cbn [mbind result_bind py_items].
  now rewrite (add_configured_jobs job_library items js Workload.init Hjs).
Qed.

(** Two jobs on the same function, one with params. *)
Lemma from_config_jobs_witness :
  Workload.from_config sample_library
    (PDict [("jobs",
             PDict [("short", PDict [("name", PStr "content_length");
                                     ("params", PDict [("max", PInt 5)])]);
                    ("long", PDict [("name", PStr "content_length");
                                    ("params", PNone)])])])
  = Ok (Workload.Build
          [Job.Build "short" (PDict [("max", PInt 5)]) content_length ∅;
           Job.Build "long" (PDict []) content_length ∅] ∅).
Proof.
  apply (from_config_jobs sample_library
           [("jobs",
             PDict [("short", PDict [("name", PStr "content_length");
                                     ("params", PDict [("max", PInt 5)])]);
                    ("long", PDict [("name", PStr "content_length");
                                    ("params", PNone)])])]
           [("short", PDict [("name", PStr "content_length");
                             ("params", PDict [("max", PInt 5)])]);
            ("long", PDict [("name", PStr "content_length");
                            ("params", PNone)])]);
    reflexivity.
Defined.

(** X18.  [Workload.from_config] raises [KeyError] on a configuration
    without [jobs] and [AttributeError] when [jobs] is no mapping; else the
    first entry that stands for no job decides: [TypeError] if it is no
    mapping, [KeyError] if it has no [name], [ValueError] if the name is
    [None], [TypeError] if it is another value that is no string,
    [AttributeError] if the module of the library has no attribute of that
    name, and [AssertionError] if the attribute is [None].  Every other
    entry stands for a job, so that a configuration without such an entry
    gets its workload. *)
Theorem from_config_first_error {JobResult : Type}
    (job_library : gmap string (JobFunction JobResult)) (config : pydict) :
  (dict_lookup "jobs" config = None ->
   Workload.from_config job_library (PDict config) = Raise KeyError) /\
  (forall v,
      dict_lookup "jobs" config = Some v ->
      (forall items, v <> PDict items) ->
      Workload.from_config job_library (PDict config) = Raise AttributeError) /\
  (forall pre job_id job_config post e,
      dict_lookup "jobs" config
      = Some (PDict (pre ++ (job_id, job_config) :: post)%list) ->
      Forall (fun entry => config_error job_library entry.2 = None) pre ->
      config_error job_library job_config = Some e ->
      Workload.from_config job_library (PDict config) = Raise e) /\
  (forall items,
      dict_lookup "jobs" config = Some (PDict items) ->
      Forall (fun entry => config_error job_library entry.2 = None) items ->
      exists js,
        mapM (job_of_config job_library) items = Some js /\
        Workload.from_config job_library (PDict config)
        = Ok (Workload.Build js ∅)).
Proof.
  assert (forall items,
             Forall (fun entry => config_error job_library entry.2 = None)
                    items ->
             exists js, mapM (job_of_config job_library) items = Some js)
    as Hjobs.
  { intros items Hall. induction Hall as [|entry items Hentry Hall [js Hjs]].
    - now exists [].
    - apply config_error_job_of_config in Hentry as [job Hjob].
      exists (job :: js). cbn. rewrite Hjob. cbn. now rewrite Hjs. }
  unfold Workload.from_config. cbn [py_subscript]. split; [|split; [|split]].
  - now intros ->.
  - intros v -> Hv. cbn [mbind result_bind].
    destruct v; try reflexivity. now destruct (Hv d).
  - intros pre job_id job_config post e -> Hpre He.
    cbn [mbind result_bind py_items].
    destruct (Hjobs pre Hpre) as [js Hjs].
    generalize (@Workload.init JobResult) as w.
    apply mapM_Some in Hjs.
    induction Hjs as [|entry job items js Hjob Hall IH]; intros w.
    + now apply add_configured_stops.
    + cbn [app]. rewrite (add_configured_job _ entry _ job w Hjob).
      apply IH. now apply Forall_cons in Hpre as [_ Hpre].
  - intros items -> Hall. destruct (Hjobs items Hall) as [js Hjs].
    exists js. split; [exact Hjs|]. cbn [mbind result_bind py_items].
    now rewrite (add_configured_jobs job_library items js Workload.init Hjs).
Qed.

(** The second entry of a configuration has no name, and the first entry
    of another names the documentation of the module, which is [None]. *)
Lemma from_config_first_error_witness :
  Workload.from_config sample_library
    (PDict [("jobs",
             PDict [("length", PDict [("name", PStr "content_length")]);
                    ("mood", PDict [("params", PDict [])]);
                    ("tone", PDict [("name", PStr "sentiment")])])])
  = Raise KeyError /\
  Workload.from_config sample_library
    (PDict [("jobs",
             PDict [("doc", PDict [("name", PStr "__doc__")]);
                    ("tone", PDict [("name", PStr "sentiment")])])])
  = Raise AssertionError.
Proof.
  split.
  - apply (proj1 (proj2 (proj2 (from_config_first_error sample_library
             [("jobs",
               PDict [("length", PDict [("name", PStr "content_length")]);
                      ("mood", PDict [("params", PDict [])]);
                      ("tone", PDict [("name", PStr "sentiment")])])])))
             [("length", PDict [("name", PStr "content_length")])]
             "mood" (PDict [("params", PDict [])])
             [("tone", PDict [("name", PStr "sentiment")])] KeyError).
    + reflexivity.
    + repeat constructor.
    + reflexivity.
  - apply (proj1 (proj2 (proj2 (from_config_first_error sample_library
             [("jobs",
               PDict [("doc", PDict [("name", PStr "__doc__")]);
                      ("tone", PDict [("name", PStr "sentiment")])])])))
             [] "doc" (PDict [("name", PStr "__doc__")])
             [("tone", PDict [("name", PStr "sentiment")])] AssertionError).
    + reflexivity.
    + constructor.
    + reflexivity.
Defined.

(** X19.  [Job.run] touches nothing but [job_results], and there only the
    id of the message: it never removes a stored result, and two runs on
    messages of different ids, which store under different keys, leave
    the same job in either order. *)
Theorem job_run_stores_commute {JobResult : Type}
    (job : Job.t JobResult) (m1 m2 : Message.t) :
  (Message.id m1 <> Message.id m2 ->
   (Job.run (Job.run job m1).2 m2).2 = (Job.run (Job.run job m2).2 m1).2) /\
  (forall k, is_Some (Job.job_results job !! k) ->
             is_Some (Job.job_results (Job.run job m1).2 !! k)) /\
  Job.job_id (Job.run job m1).2 = Job.job_id job /\
  Job.params (Job.run job m1).2 = Job.params job /\
  Job.job_function (Job.run job m1).2 = Job.job_function job.
Proof.
  split; [|split].
  - intros Hne. rewrite !run_snd, !call_with_results, !with_results_twice.
    cbn [with_results Job.job_results].
    destruct (Job.call job m1), (Job.call job m2); try reflexivity.
    now rewrite insert_insert_ne.
  - intros k Hk. rewrite run_snd. cbn.
    destruct (Job.call job m1); [|exact Hk].
    destruct (decide (Message.id m1 = k)) as [<-|Hne].
    + rewrite lookup_insert_eq. eauto.
    + now rewrite lookup_insert_ne.
  - now rewrite run_snd.
Qed.

(** The sample job on the two sample messages, in either order. *)
Lemma job_run_stores_commute_witness :
  (Job.run (Job.run sample_job (Message.Build "m1" Message.user "Hello")).2
     (Message.Build "m2" Message.assistant "Hi there")).2
  = (Job.run
       (Job.run sample_job (Message.Build "m2" Message.assistant "Hi there")).2
       (Message.Build "m1" Message.user "Hello")).2.
Proof.
  apply (proj1 (job_run_stores_commute sample_job
                  (Message.Build "m1" Message.user "Hello")
                  (Message.Build "m2" Message.assistant "Hi there"))).
  discriminate.
Defined.

Section RunFacts.

Context {JobResult : Type}.

Implicit Types (job : Job.t JobResult) (jobs : list (Job.t JobResult)).
Implicit Types (m : Message.t) (messages : list Message.t).

Lemma ran_job_ids jobs messages :
  Job.job_id <$> (ran messages <$> jobs) = Job.job_id <$> jobs.
Proof. rewrite <- list_fmap_compose. now apply list_fmap_ext. Qed.

Lemma ran_nil job : ran [] job = job.
Proof. apply with_results_id. Qed.

Lemma stored_lookup_raise job messages (rs : gmap string JobResult) m e :
  NoDup (Message.id <$> messages) ->
  m ∈ messages -> Job.call job m = Raise e ->
  stored job messages rs !! Message.id m = rs !! Message.id m.
Proof.
  revert rs. induction messages as [|m0 ms IH]; intros rs Hnd Hin He.
  - now apply elem_of_nil in Hin.
  - rewrite fmap_cons, NoDup_cons in Hnd. destruct Hnd as [Hfresh Hnd].
    rewrite stored_cons. apply elem_of_cons in Hin as [->|Hin].
    + now rewrite He, stored_other.
    + rewrite IH by assumption.
      destruct (Job.call job m0); [|reflexivity].
      apply lookup_insert_ne. intros Heq. apply Hfresh.
      rewrite Heq. now apply list_elem_of_fmap_2.
Qed.

Lemma complete_ran jobs messages :
  NoDup (Message.id <$> messages) ->
  (forall job m, job ∈ jobs -> m ∈ messages ->
     exists r, Job.call job m = Ok r) ->
  complete messages (ran messages <$> jobs).
Proof.
  intros Hnd Hall. apply Forall_forall. intros m Hm.
  apply Forall_forall. intros job' Hjob'.
  apply list_elem_of_fmap in Hjob' as (job & -> & Hjob).
  destruct (Hall job m Hjob Hm) as [r Hr]. exists r.
  cbn. now apply stored_lookup.
Qed.

Lemma run_jobs_sequential_fails (jpre jpost : list (Job.t JobResult)) job
    (pre post : list Message.t) m e :
  (forall j m', j ∈ jpre -> m' ∈ (pre ++ m :: post)%list ->
     exists r, Job.call j m' = Ok r) ->
  (forall m', m' ∈ pre -> exists r, Job.call job m' = Ok r) ->
  Job.call job m = Raise e ->
  Workload.run_jobs (jpre ++ job :: jpost)%list (pre ++ m :: post)%list
    "sequential"
  = (Raise e,
     ((ran (pre ++ m :: post)%list <$> jpre) ++ ran pre job :: jpost)%list).
Proof.
  intros Hjpre Hpre He. induction jpre as [|j jpre IH].
  - cbn [app fmap list_fmap Workload.run_jobs String.eqb Ascii.eqb Bool.eqb].
    cbn match. rewrite <- (with_results_id job) at 1.
    now rewrite (run_sequential_fails job pre post m e _ Hpre He).
  - cbn [app Workload.run_jobs String.eqb Ascii.eqb Bool.eqb]. cbn match.
    rewrite run_sequential_ran
      by (intros m' Hm'; apply Hjpre; [left|exact Hm']).
    rewrite IH; [reflexivity|].
    intros j' m' Hj' Hm'. apply Hjpre; [now right|exact Hm'].
Qed.

End RunFacts.

(** X20.  In sequential mode, over messages of distinct ids and with jobs
    of distinct ids none of which raises on any of the messages,
    [Workload.run] returns a table that has, for every message and every
    job, what [Job.run] returns for them, and no row for any other id. *)
Theorem workload_run_sequential_table {JobResult : Type}
    (self : Workload.t JobResult) (messages : list Message.t) :
  NoDup (Message.id <$> messages) ->
  NoDup (Job.job_id <$> Workload.jobs self) ->
  (forall job m, job ∈ Workload.jobs self -> m ∈ messages ->
     exists r, Job.call job m = Ok r) ->
  exists table w',
    Workload.run self messages "sequential" = (Ok table, w') /\
    (forall job m, job ∈ Workload.jobs self -> m ∈ messages ->
       exists r, (Job.run job m).1 = Ok r /\
                 table !! Message.id m ≫= (.!! Job.job_id job) = Some r) /\
    (forall k, k ∉ Message.id <$> messages -> table !! k = None).
Proof.
  intros Hmsgs Hjobs Hall.
  set (jobs' := ran messages <$> Workload.jobs self).
  exists (table_of messages jobs' ∅), (Workload.Build jobs' (table_of messages jobs' ∅)).
  split; [|split].
  - unfold Workload.run. rewrite run_jobs_sequential by exact Hall.
    fold jobs'. now rewrite collect_ok by now apply complete_ran.
  - intros job m Hjob Hm. destruct (Hall job m Hjob Hm) as [r Hr].
    exists r. split; [now rewrite run_fst|].
    rewrite table_of_lookup.
    rewrite decide_True by now apply list_elem_of_fmap_2.
    cbn. change (Job.job_id job) with (Job.job_id (ran messages job)).
    apply row_of_lookup.
    + unfold jobs'. now rewrite ran_job_ids.
    + now apply list_elem_of_fmap_2.
    + cbn. now apply stored_lookup.
  - intros k Hk. rewrite table_of_lookup. now rewrite decide_False.
Qed.

(** Two jobs over the two sample messages. *)
Lemma workload_run_sequential_table_witness :
  exists table w',
    Workload.run
      (Workload.Build
         [sample_job; Job.Build "letter" (PDict []) first_letter ∅] ∅)
      sample_messages "sequential" = (Ok table, w') /\
    (forall job m,
        job ∈ [sample_job; Job.Build "letter" (PDict []) first_letter ∅] ->
        m ∈ sample_messages ->
        exists r, (Job.run job m).1 = Ok r /\
                  table !! Message.id m ≫= (.!! Job.job_id job) = Some r) /\
    (forall k, k ∉ Message.id <$> sample_messages -> table !! k = None).
Proof.
  apply (workload_run_sequential_table
           (Workload.Build
              [sample_job; Job.Build "letter" (PDict []) first_letter ∅] ∅)
           sample_messages).
  - apply (bool_decide_unpack _). vm_compute. exact I.
  - apply (bool_decide_unpack _). vm_compute. exact I.
  - intros job m Hjob Hm.
    apply elem_of_cons in Hjob as [->|Hjob];
      [|apply elem_of_cons in Hjob as [->|Hjob];
        [|now apply elem_of_nil in Hjob]];
      (apply elem_of_cons in Hm as [->|Hm];
       [|apply elem_of_cons in Hm as [->|Hm];
         [|now apply elem_of_nil in Hm]]);
      eexists; reflexivity.
Defined.

(** X21.  In sequential mode the first call that raises ends
    [Workload.run] with its exception: the jobs before have run on all
    the messages, the job of the call on the messages before it, the jobs
    after on none, and the results of the workload are as they were. *)
Theorem workload_run_sequential_fails {JobResult : Type}
    (jpre jpost : list (Job.t JobResult)) (job : Job.t JobResult)
    (pre post : list Message.t) (m : Message.t) (e : exn)
    (old : gmap string (gmap string JobResult)) :
  (forall j m', j ∈ jpre -> m' ∈ (pre ++ m :: post)%list ->
     exists r, Job.call j m' = Ok r) ->
  (forall m', m' ∈ pre -> exists r, Job.call job m' = Ok r) ->
  Job.call job m = Raise e ->
  Workload.run (Workload.Build (jpre ++ job :: jpost)%list old)
    (pre ++ m :: post)%list "sequential"
  = (Raise e,
     Workload.Build
       ((ran (pre ++ m :: post)%list <$> jpre) ++ ran pre job :: jpost)%list
       old).
Proof.
  intros Hjpre Hpre He. unfold Workload.run. cbn [Workload.jobs].
  now rewrite (run_jobs_sequential_fails jpre jpost job pre post m e).
Qed.

(** The second of two jobs raises on the second of three messages. *)
Lemma workload_run_sequential_fails_witness :
  Workload.run
    (Workload.Build
       [sample_job; Job.Build "letter" (PDict []) first_letter ∅;
        Job.Build "again" (PDict []) content_length ∅] ∅)
    [Message.Build "m1" Message.user "Hello";
     Message.Build "m2" Message.assistant "";
     Message.Build "m3" Message.user "Bye"] "sequential"
  = (Raise ValueError,
     Workload.Build
       [ran [Message.Build "m1" Message.user "Hello";
             Message.Build "m2" Message.assistant "";
             Message.Build "m3" Message.user "Bye"] sample_job;
        ran [Message.Build "m1" Message.user "Hello"]
          (Job.Build "letter" (PDict []) first_letter ∅);
        Job.Build "again" (PDict []) content_length ∅] ∅).
Proof.
  apply (workload_run_sequential_fails
           [sample_job] [Job.Build "again" (PDict []) content_length ∅]
           (Job.Build "letter" (PDict []) first_letter ∅)
           [Message.Build "m1" Message.user "Hello"]
           [Message.Build "m3" Message.user "Bye"]
           (Message.Build "m2" Message.assistant "") ValueError ∅).
  - intros j m' Hj _. apply list_elem_of_singleton in Hj as ->.
    eexists. reflexivity.
  - intros m' Hm'. apply list_elem_of_singleton in Hm' as ->.
    eexists. reflexivity.
  - reflexivity.
Defined.

Section ParallelFacts.

Context {JobResult : Type}.

Implicit Types (job : Job.t JobResult) (jobs : list (Job.t JobResult)).
Implicit Types (m : Message.t) (messages : list Message.t).

Lemma ran_perm job messages messages' :
  messages ≡ₚ messages' -> NoDup (Message.id <$> messages) ->
  ran messages job = ran messages' job.
Proof.
  intros Hp Hnd. unfold ran. now rewrite (stored_perm job _ _ _ Hp Hnd).
Qed.

Lemma complete_perm jobs messages messages' :
  messages ≡ₚ messages' -> complete messages jobs -> complete messages' jobs.
Proof. unfold complete. now intros ->. Qed.

Lemma table_of_perm jobs messages messages' :
  messages ≡ₚ messages' ->
  table_of messages jobs ∅ = table_of messages' jobs ∅.
Proof.
  intros Hp. apply map_eq. intros k. rewrite !table_of_lookup.
  destruct (decide (k ∈ Message.id <$> messages)) as [Hin|Hout].
  - rewrite decide_True; [reflexivity|]. now rewrite <- Hp.
  - rewrite decide_False; [reflexivity|]. now rewrite <- Hp.
Qed.

Lemma complete_dec messages jobs : Decision (complete messages jobs).
Proof. unfold complete. apply _. Defined.

Lemma run_parallel_cases (self : Workload.t JobResult) messages :
  let jobs' := ran messages <$> Workload.jobs self in
  Workload.run self messages "parallel"
  = if complete_dec messages jobs'
    then (Ok (table_of messages jobs' ∅),
          Workload.Build jobs' (table_of messages jobs' ∅))
    else (Raise KeyError, Workload.Build jobs' (Workload.results self)).
Proof.
  intros jobs'. destruct (run_parallel_result self messages) as [Hok Hko].
  fold jobs' in Hok, Hko. destruct (complete_dec messages jobs'); auto.
Qed.

End ParallelFacts.

(** X22.  In parallel mode [Workload.run] raises nothing but the
    [KeyError] of a result that is missing: when a job raises on a message
    whose id it holds no result for, the messages being of distinct ids,
    the run ends with [KeyError] and the exception of the job is lost. *)
Theorem workload_run_parallel_key_error {JobResult : Type}
    (self : Workload.t JobResult) (messages : list Message.t) :
  (forall e, (Workload.run self messages "parallel").1 = Raise e ->
             e = KeyError) /\
  (forall job m e,
      NoDup (Message.id <$> messages) ->
      job ∈ Workload.jobs self -> m ∈ messages ->
      Job.call job m = Raise e ->
      Job.job_results job !! Message.id m = None ->
      (Workload.run self messages "parallel").1 = Raise KeyError).
Proof.
  rewrite run_parallel_cases. split.
  - intros e. destruct (complete_dec _ _); cbn; congruence.
  - intros job m e Hnd Hjob Hm He Hnone.
    destruct (complete_dec _ _) as [Hc|]; [|reflexivity]. exfalso.
    unfold complete in Hc. rewrite Forall_forall in Hc.
    specialize (Hc m Hm). rewrite Forall_forall in Hc.
    destruct (Hc (ran messages job)) as [r Hr];
      [now apply list_elem_of_fmap_2|].
    cbn in Hr. rewrite (stored_lookup_raise job messages _ m e) in Hr
      by assumption.
    congruence.
Qed.

(** A job that raises [ValueError] on the second of two messages. *)
Lemma workload_run_parallel_key_error_witness :
  (Workload.run
     (Workload.Build [Job.Build "letter" (PDict []) first_letter ∅] ∅)
     [Message.Build "m1" Message.user "Hello";
      Message.Build "m2" Message.assistant ""] "parallel").1
  = Raise KeyError.
Proof.
  apply (proj2 (workload_run_parallel_key_error
                  (Workload.Build
                     [Job.Build "letter" (PDict []) first_letter ∅] ∅)
                  [Message.Build "m1" Message.user "Hello";
                   Message.Build "m2" Message.assistant ""])
           (Job.Build "letter" (PDict []) first_letter ∅)
           (Message.Build "m2" Message.assistant "") ValueError).
  - apply (bool_decide_unpack _). vm_compute. exact I.
  - left.
  - right. left.
  - reflexivity.
  - reflexivity.
Defined.

(** X23.  In parallel mode, over messages of distinct ids, what
    [Workload.run] returns and leaves does not depend on the order in
    which the calls on the messages are made. *)
Theorem workload_run_parallel_order {JobResult : Type}
    (self : Workload.t JobResult) (messages messages' : list Message.t) :
  messages ≡ₚ messages' ->
  NoDup (Message.id <$> messages) ->
  Workload.run self messages' "parallel"
  = Workload.run self messages "parallel".
Proof.
  intros Hp Hnd. rewrite !run_parallel_cases.
  assert (ran messages' <$> Workload.jobs self
          = ran messages <$> Workload.jobs self) as ->.
  { apply list_fmap_ext. intros i job _. symmetry. now apply ran_perm. }
  rewrite <- (table_of_perm _ _ _ Hp).
  destruct (complete_dec messages _) as [Hc|Hc],
           (complete_dec messages' _) as [Hc'|Hc']; try reflexivity.
  - destruct Hc'. now apply (complete_perm _ messages).
  - destruct Hc. now apply (complete_perm _ messages').
Qed.

(** The two sample messages, in the other order. *)
Lemma workload_run_parallel_order_witness :
  Workload.run (Workload.Build [sample_job] ∅)
    [Message.Build "m2" Message.assistant "Hi there";
     Message.Build "m1" Message.user "Hello"] "parallel"
  = Workload.run (Workload.Build [sample_job] ∅) sample_messages "parallel".
Proof.
  apply (workload_run_parallel_order (Workload.Build [sample_job] ∅)
           sample_messages).
  - apply Permutation_swap.
  - apply (bool_decide_unpack _). vm_compute. exact I.
Defined.

(** X24.  Over messages of distinct ids on which no job raises, the
    parallel and the sequential mode of [Workload.run] return the same
    table and leave the same workload. *)
Theorem workload_run_parallel_as_sequential {JobResult : Type}
    (self : Workload.t JobResult) (messages : list Message.t) :
  NoDup (Message.id <$> messages) ->
  (forall job m, job ∈ Workload.jobs self -> m ∈ messages ->
     exists r, Job.call job m = Ok r) ->
  Workload.run self messages "parallel"
  = Workload.run self messages "sequential".
Proof.
  intros _ Hall. unfold Workload.run.
  now rewrite run_jobs_parallel, run_jobs_sequential.
Qed.

(** The sample job over the sample messages. *)
Lemma workload_run_parallel_as_sequential_witness :
  Workload.run (Workload.Build [sample_job] ∅) sample_messages "parallel"
  = Workload.run (Workload.Build [sample_job] ∅) sample_messages "sequential".
Proof.
  apply (workload_run_parallel_as_sequential
           (Workload.Build [sample_job] ∅) sample_messages).
  - apply (bool_decide_unpack _). vm_compute. exact I.
  - intros job m Hjob _. apply list_elem_of_singleton in Hjob as ->.
    eexists. reflexivity.
Defined.

(** X25.  A workload without jobs never looks at the executor type: for
    every type, an unknown one too, [Workload.run] returns a table with an
    empty row for the id of every message and no other row, and stores
    it. *)
Theorem workload_run_no_jobs {JobResult : Type}
    (old : gmap string (gmap string JobResult)) (messages : list Message.t)
    (executor_type : string) :
  exists table : gmap string (gmap string JobResult),
    Workload.run (Workload.Build [] old) messages executor_type
    = (Ok table, Workload.Build [] table) /\
    forall k, table !! k
              = if decide (k ∈ Message.id <$> messages) then Some ∅
                else None.
Proof.
  exists (table_of messages [] ∅). split.
  - unfold Workload.run. cbn [Workload.jobs Workload.run_jobs].
    rewrite collect_ok; [reflexivity|].
    apply Forall_forall. intros m _. constructor.
  - intros k. rewrite table_of_lookup.
    now destruct (decide (k ∈ Message.id <$> messages)).
Qed.

Section KeepFacts.

Context {JobResult : Type}.

Implicit Types (job : Job.t JobResult) (jobs : list (Job.t JobResult)).
Implicit Types (m : Message.t) (messages : list Message.t).
Implicit Types (rs : gmap string JobResult).

Lemma run_sequential_prefix job messages rs (r : result unit) job' :
  Workload.run_sequential (with_results job rs) messages = (r, job') ->
  exists pre, pre `prefix_of` messages /\
              job' = with_results job (stored job pre rs).
Proof.
  revert rs. induction messages as [|m ms IH]; intros rs Hrun.
  - injection Hrun as _ <-. exists []. split; [apply prefix_nil|reflexivity].
  - cbn [Workload.run_sequential] in Hrun.
    pose proof (run_snd (with_results job rs) m) as Hsnd.
    pose proof (run_fst (with_results job rs) m) as Hfst.
    rewrite call_with_results in Hsnd, Hfst.
    rewrite with_results_twice in Hsnd.
    destruct (Job.run (with_results job rs) m) as [r0 job0].
    cbn in Hsnd, Hfst. subst r0 job0.
    destruct (Job.call job m) as [r1|e] eqn:Hr.
    + destruct (IH _ Hrun) as (pre & Hpre & ->).
      exists (m :: pre). split; [now apply prefix_cons|].
      now rewrite stored_cons, Hr.
    + injection Hrun as _ <-. exists [].
      split; [apply prefix_nil|reflexivity].
Qed.

Lemma run_jobs_prefix jobs messages (executor_type : string)
    (r : result unit) jobs' :
  Workload.run_jobs jobs messages executor_type = (r, jobs') ->
  Forall2 (fun job job' =>
             exists pre, pre `prefix_of` messages /\ job' = ran pre job)
          jobs jobs'.
Proof.
  assert (forall js : list (Job.t JobResult),
             Forall2 (fun job job' =>
                        exists pre, pre `prefix_of` messages /\
                                    job' = ran pre job) js js) as Hsame.
  { intros js. apply Forall_Forall2_diag, Forall_forall. intros job _.
    exists []. split; [apply prefix_nil|]. now rewrite ran_nil. }
  revert r jobs'. induction jobs as [|job jobs IH]; intros r jobs' Hrun.
  - injection Hrun as _ <-. constructor.
  - cbn [Workload.run_jobs] in Hrun.
    destruct (String.eqb executor_type "parallel").
    + destruct (Workload.run_jobs jobs messages executor_type) as [r1 js].
      injection Hrun as _ <-. constructor; [|now apply (IH r1)].
      exists messages. split; [reflexivity|apply run_parallel_ran].
    + destruct (String.eqb executor_type "sequential").
      * rewrite <- (with_results_id job) in Hrun at 1.
        destruct (Workload.run_sequential _ messages) as [r0 job0] eqn:Hseq.
        apply run_sequential_prefix in Hseq as (pre & Hpre & ->).
        destruct r0.
        -- destruct (Workload.run_jobs jobs messages executor_type)
             as [r1 js].
           injection Hrun as _ <-. constructor; [eauto|now apply (IH r1)].
        -- injection Hrun as _ <-. constructor; [eauto|apply Hsame].
      * injection Hrun as _ <-. apply Hsame.
Qed.

Lemma stored_is_Some job messages rs (k : string) :
  is_Some (rs !! k) -> is_Some (stored job messages rs !! k).
Proof.
  revert rs. induction messages as [|m ms IH]; intros rs Hk; [exact Hk|].
  rewrite stored_cons. apply IH. destruct (Job.call job m); [|exact Hk].
  destruct (decide (Message.id m = k)) as [<-|Hne].
  - rewrite lookup_insert_eq. eauto.
  - now rewrite lookup_insert_ne.
Qed.

Lemma run_jobs_of (self : Workload.t JobResult) messages
    (executor_type : string) :
  Workload.jobs (Workload.run self messages executor_type).2
  = (Workload.run_jobs (Workload.jobs self) messages executor_type).2.
Proof.
  unfold Workload.run.
  destruct (Workload.run_jobs _ _ _) as [[[]|e] js]; cbn; [|reflexivity].
  now destruct (Workload.collect messages js ∅).
Qed.

Lemma collect_cases messages jobs
    (acc : gmap string (gmap string JobResult)) :
  Workload.collect messages jobs acc
  = if complete_dec messages jobs then Ok (table_of messages jobs acc)
    else Raise KeyError.
Proof.
  destruct (complete_dec messages jobs) as [Hc|Hc].
  - now apply collect_ok.
  - now apply collect_raise.
Qed.

End KeepFacts.

(** X26.  Whatever its outcome, [Workload.run] leaves as many jobs as
    there were, each with the id, the params and the function it had, and
    with a result for every message id it had one for. *)
Theorem workload_run_keeps_jobs {JobResult : Type}
    (self : Workload.t JobResult) (messages : list Message.t)
    (executor_type : string) :
  Forall2 (fun job job' =>
             Job.job_id job' = Job.job_id job /\
             Job.params job' = Job.params job /\
             Job.job_function job' = Job.job_function job /\
             forall k, is_Some (Job.job_results job !! k) ->
                       is_Some (Job.job_results job' !! k))
          (Workload.jobs self)
          (Workload.jobs (Workload.run self messages executor_type).2).
Proof.
  rewrite run_jobs_of.
  destruct (Workload.run_jobs (Workload.jobs self) messages executor_type)
    as [r jobs'] eqn:Hrun.
  apply run_jobs_prefix in Hrun. cbn [snd].
  eapply Forall2_impl; [exact Hrun|].
  intros job job' (pre & _ & ->). repeat split.
  intros k Hk. cbn. now apply stored_is_Some.
Qed.

(** X27.  [Workload.run] builds its table anew from what the jobs hold
    after the dispatch.  When it returns, the results of the workload are
    the table returned, the table has a row for the id of every message
    given and for no other id, whatever rows there were before, and, the
    jobs being of distinct ids, its entry for a message and a job is what
    the job holds for the id of the message.  When it raises, the results of
    the workload are as they were. *)
Theorem workload_run_rebuilds_table {JobResult : Type}
    (self : Workload.t JobResult) (messages : list Message.t)
    (executor_type : string) :
  match Workload.run self messages executor_type with
  | (Ok table, self') =>
      Workload.results self' = table /\
      (forall k, is_Some (table !! k) <-> k ∈ Message.id <$> messages) /\
      (NoDup (Job.job_id <$> Workload.jobs self') ->
       forall job m, job ∈ Workload.jobs self' -> m ∈ messages ->
         table !! Message.id m ≫= (.!! Job.job_id job)
         = Job.job_results job !! Message.id m)
  | (Raise e, self') => Workload.results self' = Workload.results self
  end.
Proof.
  unfold Workload.run.
  destruct (Workload.run_jobs (Workload.jobs self) messages executor_type)
    as [[[]|e] jobs']; [|reflexivity].
  rewrite collect_cases.
  destruct (complete_dec messages jobs') as [Hc|Hc]; [|reflexivity].
  cbn [Workload.results Workload.jobs]. split; [reflexivity|]. split.
  - intros k. rewrite table_of_lookup.
    destruct (decide (k ∈ Message.id <$> messages)) as [Hin|Hout].
    + split; eauto.
    + rewrite lookup_empty. split; [intros [? ?]; discriminate|tauto].
  - intros Hnd job m Hjob Hm. rewrite table_of_lookup.
    rewrite decide_True by now apply list_elem_of_fmap_2.
    cbn. unfold complete in Hc. rewrite Forall_forall in Hc.
    specialize (Hc m Hm). rewrite Forall_forall in Hc.
    destruct (Hc job Hjob) as [r Hr]. rewrite Hr.
    now apply row_of_lookup.
Qed.

(** A workload that holds the row of an earlier message loses it. *)
Lemma workload_run_rebuilds_table_witness :
  match
    Workload.run (Workload.Build [sample_job] {[ "m0" := {[ "length" := 2 ]} ]})
      sample_messages "sequential"
  with
  | (Ok table, self') =>
      Workload.results self' = table /\
      (forall k, is_Some (table !! k) <-> k ∈ Message.id <$> sample_messages) /\
      (NoDup (Job.job_id <$> Workload.jobs self') ->
       forall job m, job ∈ Workload.jobs self' -> m ∈ sample_messages ->
         table !! Message.id m ≫= (.!! Job.job_id job)
         = Job.job_results job !! Message.id m)
  | (Raise e, self') =>
      Workload.results self' = {[ "m0" := {[ "length" := 2 ]} ]}
  end.
Proof.
  exact (workload_run_rebuilds_table
           (Workload.Build [sample_job] {[ "m0" := {[ "length" := 2 ]} ]})
           sample_messages "sequential").
Defined.
